(** * lobos-board: the collaborative synchronisation core

  A shallow embedding of the Socket.IO relay server and of the client hook
  [useWhiteboard] ([src/hooks/useWhiteboard.ts]), and the proofs
  of the properties its specification states about them.

  The rendering engine (fabric.js) and the transport (Socket.IO) are
  external collaborators.  They are modelled at their documented interface:
  - a canvas is the array of its objects, bottom first; [add] appends and
    fires the [object:added] listener, [remove] splices and fires the
    [object:removed] listener, [clear] removes every object in turn and
    [loadFromJSON] clears and then adds the revived objects;
    [enlivenObjects] hands the revived objects to its callback;
  - a Socket.IO server keeps a map from room names to sets of socket ids,
    every socket is a member of the room named by its own id,
    [socket.to(r)] addresses the members of [r] except the socket and
    [io.to(r)] addresses all of them.

  A client is a record of the hook's props and refs, the canvas objects
  and the list of the messages it emitted; every listener and callback is
  a function on that record.  Asynchronous callbacks ([undo], [redo],
  [paste], [cut], [duplicate], the upload decoders) are taken at their
  completion, on the path where nothing throws. *)

From stdpp Require Import gmap strings list.

Local Open Scope string_scope.
Local Open Scope Z_scope.
Local Open Scope list_scope.

(** ** The object model of the rendering engine *)

Module Fabric.

(** The serialisable properties of a drawable.  [id] is the custom
    property the hook attaches ([undefined] is [None]); [left] and [top]
    are JavaScript numbers in the source and integers here; [payload]
    stands for the remaining geometry and style. *)
Record Props := mkProps {
  id : option string;
  type : string;
  left : Z;
  top : Z;
  globalCompositeOperation : string;
  objectCaching : bool;
  payload : string;
}.

(** What [toJSON] yields for one object: its properties and, for a group
    or an active selection, those of its members. *)
Record Serialized := mkSerialized {
  s_props : Props;
  s_objects : list Props;
}.

(** A live object: its properties, its members ([_objects]) and the two
    local markers that are never serialised. *)
Record FabricObject := mkObject {
  props : Props;
  objects : list Props;
  remote : bool;
  isRipple : bool;
}.

#[global] Instance Props_eq_dec : EqDecision Props.
Proof. solve_decision. Defined.
#[global] Instance Serialized_eq_dec : EqDecision Serialized.
Proof. solve_decision. Defined.
#[global] Instance FabricObject_eq_dec : EqDecision FabricObject.
Proof. solve_decision. Defined.

Definition set_id (i : option string) (p : Props) : Props :=
  mkProps i (type p) (left p) (top p) (globalCompositeOperation p)
          (objectCaching p) (payload p).

Definition set_objectCaching (b : bool) (p : Props) : Props :=
  mkProps (id p) (type p) (left p) (top p) (globalCompositeOperation p)
          b (payload p).

Definition set_position (x y : Z) (p : Props) : Props :=
  mkProps (id p) (type p) x y (globalCompositeOperation p)
          (objectCaching p) (payload p).

Definition set_props (p : Props) (o : FabricObject) : FabricObject :=
  mkObject p (objects o) (remote o) (isRipple o).

Definition set_objects (l : list Props) (o : FabricObject) : FabricObject :=
  mkObject (props o) l (remote o) (isRipple o).

Definition set_remote (b : bool) (o : FabricObject) : FabricObject :=
  mkObject (props o) (objects o) b (isRipple o).

(** JavaScript truthiness of an [id]: [undefined] and the empty string
    are falsy. *)
Definition truthy (i : option string) : bool :=
  match i with
  | Some s => negb (bool_decide (s = ""))
  | None => false
  end.

(** [toObject(propertiesToInclude)] on properties: [id] and
    [objectCaching] are written only when they are listed; an omitted
    [id] reads back as [undefined], an omitted [objectCaching] as its
    default [true]. *)
Definition pick (propertiesToInclude : list string) (p : Props) : Props :=
  mkProps
    (if bool_decide ("id" ∈ propertiesToInclude) then id p else None)
    (type p) (left p) (top p) (globalCompositeOperation p)
    (if bool_decide ("objectCaching" ∈ propertiesToInclude)
     then objectCaching p else true)
    (payload p).

Definition toObject (propertiesToInclude : list string) (o : FabricObject)
  : Serialized :=
  mkSerialized (pick propertiesToInclude (props o))
               (pick propertiesToInclude <$> objects o).

(** Reviving a serialised object ([enlivenObjects], [fromObject]): the
    local markers start unset. *)
Definition fromObject (s : Serialized) : FabricObject :=
  mkObject (s_props s) (s_objects s) false false.

(** A whole-canvas snapshot, [JSON.stringify(canvas.toJSON(...))].  The
    canvas-level fields are constant in the hook, so the text is
    determined by the serialised objects, and two texts are identical
    exactly when these lists are equal. *)
Definition Snapshot := list Serialized.

Definition toJSON (propertiesToInclude : list string)
           (objs : list FabricObject) : Snapshot :=
  toObject propertiesToInclude <$> objs.

(** [obj.clone(propertiesToInclude)]: serialise and revive. *)
Definition clone (propertiesToInclude : list string) (o : FabricObject)
  : FabricObject :=
  fromObject (toObject propertiesToInclude o).

End Fabric.

Import Fabric.

(** ** Wire messages *)

Module Wire.

(** The payload of a [canvas-event]; it is typed [any] in the source, so
    [type] is an arbitrary string and [id], [data] may be missing. *)
Record CanvasEvent := mkEvent {
  room : string;
  ev_type : string;
  ev_id : option string;
  data : option Serialized;
}.

(** Messages a client emits to the relay. *)
Inductive ClientMsg :=
| join_room (roomId : string)
| canvas_event (event : CanvasEvent)
| sync_state (room : string) (state : Snapshot) (targetId : string).

(** Messages the relay emits to clients. *)
Inductive ServerMsg :=
| request_sync (requesterId : string)
| relayed_canvas_event (event : CanvasEvent)
| load_state (state : Snapshot).

#[global] Instance CanvasEvent_eq_dec : EqDecision CanvasEvent.
Proof. solve_decision. Defined.
#[global] Instance ClientMsg_eq_dec : EqDecision ClientMsg.
Proof. solve_decision. Defined.
#[global] Instance ServerMsg_eq_dec : EqDecision ServerMsg.
Proof. solve_decision. Defined.

End Wire.

Import Wire.

(** ** The history stack *)

Module History.

(** [historyRef.current]: two arrays of snapshots; the top of a stack is
    the last element of its array. *)
Record t := mk {
  undo : list Snapshot;
  redo : list Snapshot;
}.

End History.

(** ** The client hook, [useWhiteboard]

  The model describes a mounted client: the two initial effects have run,
  so [canvasRef.current] and [socketRef.current] are set and the test
  [!c] that opens every callback is false. *)

Module Whiteboard.

Record Client := mkClient {
  isReadOnly : bool;                      (* prop of the hook *)
  roomId : string;                        (* prop of the hook *)
  activeToolRef : string;                 (* activeToolRef.current *)
  canvas : list FabricObject;             (* the canvas objects, bottom first *)
  historyRef : History.t;
  isRestoringRef : bool;
  clipboardRef : option FabricObject;
  isEraserDraggingRef : bool;
  emitted : list ClientMsg;               (* socket.emit calls, oldest first *)
}.

Definition set_canvas (c : list FabricObject) (st : Client) : Client :=
  mkClient (isReadOnly st) (roomId st) (activeToolRef st) c (historyRef st)
           (isRestoringRef st) (clipboardRef st) (isEraserDraggingRef st)
           (emitted st).

Definition set_history (h : History.t) (st : Client) : Client :=
  mkClient (isReadOnly st) (roomId st) (activeToolRef st) (canvas st) h
           (isRestoringRef st) (clipboardRef st) (isEraserDraggingRef st)
           (emitted st).

Definition set_isRestoring (b : bool) (st : Client) : Client :=
  mkClient (isReadOnly st) (roomId st) (activeToolRef st) (canvas st)
           (historyRef st) b (clipboardRef st) (isEraserDraggingRef st)
           (emitted st).

Definition set_clipboard (o : option FabricObject) (st : Client) : Client :=
  mkClient (isReadOnly st) (roomId st) (activeToolRef st) (canvas st)
           (historyRef st) (isRestoringRef st) o (isEraserDraggingRef st)
           (emitted st).

Definition set_isEraserDragging (b : bool) (st : Client) : Client :=
  mkClient (isReadOnly st) (roomId st) (activeToolRef st) (canvas st)
           (historyRef st) (isRestoringRef st) (clipboardRef st) b
           (emitted st).

Definition set_activeTool (tool : string) (st : Client) : Client :=
  mkClient (isReadOnly st) (roomId st) tool (canvas st)
           (historyRef st) (isRestoringRef st) (clipboardRef st)
           (isEraserDraggingRef st) (emitted st).

(** [socket.emit(...)] *)
Definition emit (m : ClientMsg) (st : Client) : Client :=
  mkClient (isReadOnly st) (roomId st) (activeToolRef st) (canvas st)
           (historyRef st) (isRestoringRef st) (clipboardRef st)
           (isEraserDraggingRef st) (emitted st ++ [m]).

(** The property list every history snapshot and most events are
    serialised with. *)
Definition history_props : list string :=
  ["id"; "globalCompositeOperation"; "objectCaching"].

(** The snapshot of an empty canvas, stored when the canvas is created. *)
Definition initialJson : Snapshot :=
  toJSON ["id"; "globalCompositeOperation"; "objectCaching"; "remote"] [].

(** The client right after the canvas was created. *)
Definition mount (readOnly : bool) (roomId activeTool : string) : Client :=
  mkClient readOnly roomId activeTool [] (History.mk [initialJson] [])
           false None false [].

(** *** History *)

(** [saveHistory]: nothing while a restore is running; nothing when the
    snapshot equals the top of [undo]; else push it and empty [redo]. *)
Definition saveHistory (st : Client) : Client :=
  if isRestoringRef st then st
  else
    let json := toJSON history_props (canvas st) in
    let lastState := last (History.undo (historyRef st)) in
    if bool_decide (lastState = Some json) then st
    else set_history (History.mk (History.undo (historyRef st) ++ [json]) []) st.

(** *** The canvas listeners of the second effect *)

(** After [canvas.add(target)] put [target] on top: the [object:added]
    listener.  [set] changes the object in place, so the top of the
    canvas is replaced; [selectable] and [evented] are presentation
    flags outside the model. *)
Definition on_object_added (st : Client) : Client :=
  match last (canvas st) with
  | None => st
  | Some target =>
      let st1 := if negb (remote target) then saveHistory st else st in
      let tool := activeToolRef st1 in
      if isReadOnly st1 || bool_decide (tool = "eraser") then
        set_canvas
          (removelast (canvas st1)
             ++ [set_props (set_objectCaching false (props target)) target])
          st1
      else st1
  end.

(** After [canvas.remove(target)] took [target] out: the
    [object:removed] listener. *)
Definition on_object_removed (target : FabricObject) (st : Client) : Client :=
  let st1 := if negb (remote target) then saveHistory st else st in
  if bool_decide (activeToolRef st1 = "eraser") then
    if truthy (id (props target)) && negb (remote target) then
      emit (canvas_event
              (mkEvent (roomId st1) "object:removed" (id (props target)) None))
           st1
    else st1
  else st1.

(** *** Canvas operations, with the listeners they fire *)

Definition canvas_add (obj : FabricObject) (st : Client) : Client :=
  on_object_added (set_canvas (canvas st ++ [obj]) st).

(** [canvas.remove(...objs)] where [objs] are the objects of [todo]
    satisfying [sel], located by identity: [kept] are the objects below
    the one under consideration that stay. *)
Fixpoint canvas_remove_where (sel : FabricObject → bool)
         (kept todo : list FabricObject) (st : Client) : Client :=
  match todo with
  | [] => st
  | o :: rest =>
      if sel o then
        canvas_remove_where sel kept rest
          (on_object_removed o (set_canvas (kept ++ rest) st))
      else canvas_remove_where sel (kept ++ [o]) rest st
  end.

(** [canvas.clear()]: [this.remove(...this.getObjects())]. *)
Definition canvas_clear (st : Client) : Client :=
  canvas_remove_where (λ _, true) [] (canvas st) st.

(** [canvas.loadFromJSON(state)]: revive, clear, add. *)
Definition loadFromJSON (state : Snapshot) (st : Client) : Client :=
  foldl (λ acc s, canvas_add (fromObject s) acc) (canvas_clear st) state.

(** [undo]: the synchronous part and the completed load.  The 50 ms
    timer that ends the restore is [restore_timeout].  A popped snapshot
    is a JSON text, never the empty string, so [if (currentState)]
    holds. *)
Definition undo (st : Client) : Client :=
  let h := historyRef st in
  if bool_decide (length (History.undo h) ≤ 1)%nat then st
  else
    match last (History.undo h) with
    | None => st
    | Some currentState =>
        let undo' := removelast (History.undo h) in
        let st1 :=
          set_history (History.mk undo' (History.redo h ++ [currentState]))
                      (set_isRestoring true st) in
        match last undo' with
        | None => st1
        | Some prevState => loadFromJSON prevState st1
        end
    end.

Definition redo (st : Client) : Client :=
  let h := historyRef st in
  match last (History.redo h) with
  | None => st
  | Some nextState =>
      let st1 :=
        set_history
          (History.mk (History.undo h ++ [nextState])
                      (removelast (History.redo h)))
          (set_isRestoring true st) in
      loadFromJSON nextState st1
  end.

Definition restore_timeout (st : Client) : Client :=
  set_isRestoring false st.

(** *** The effect that follows a change of tool

    [activeToolRef] takes the new tool and every object has its caching
    switched off for the eraser, and on again for another tool unless it
    is an erasure mask.  The restyling of a selected object, which the
    same effect does under the select and text tools, is outside the
    model; brushes, cursors and selection flags are presentation. *)
Definition on_tool_change (tool : string) (st : Client) : Client :=
  let recache (obj : FabricObject) :=
    if bool_decide (tool = "eraser") then
      set_props (set_objectCaching false (props obj)) obj
    else if bool_decide (globalCompositeOperation (props obj) = "destination-out")
    then obj
    else set_props (set_objectCaching true (props obj)) obj in
  set_canvas (recache <$> canvas st) (set_activeTool tool st).

(** *** Socket listeners of the second effect *)

Definition on_connect (st : Client) : Client :=
  emit (join_room (roomId st)) st.

(** [request-sync]: only a client that is not read-only answers, with
    [fabricCanvas.toJSON()] (no custom property listed). *)
Definition on_request_sync (requesterId : string) (st : Client) : Client :=
  if negb (isReadOnly st) then
    emit (sync_state (roomId st) (toJSON [] (canvas st)) requesterId) st
  else st.

(** [load-state]: the restore guard is raised around the load; the
    callback only changes presentation flags. *)
Definition on_load_state (state : Snapshot) (st : Client) : Client :=
  set_isRestoring false (loadFromJSON state (set_isRestoring true st)).

(** The object a replicated [object:added] puts on the canvas. *)
Definition revive_remote (event : CanvasEvent) (d : Serialized)
  : FabricObject :=
  let obj := fromObject d in
  set_remote true (set_props (set_id (ev_id event) (props obj)) obj).

(** [canvas-event]: [enlivenObjects([event.data], ...)] revives nothing
    from a missing payload. *)
Definition on_canvas_event (event : CanvasEvent) (st : Client) : Client :=
  if bool_decide (ev_type event = "object:added") then
    match data event with
    | Some d => canvas_add (revive_remote event d) st
    | None => st
    end
  else if bool_decide (ev_type event = "object:removed") then
    canvas_remove_where
      (λ obj, bool_decide (id (props obj) = ev_id event)) [] (canvas st) st
  else if bool_decide (ev_type event = "clear") then canvas_clear st
  else st.

(** *** The eraser *)

Definition Point : Type := Z * Z.

Record MouseEvent := mkMouse {
  buttons : Z;
  pointer : Point;
}.

(** An object the eraser may take: it has an id, it is no ripple and it is
    no erasure mask. *)
Definition erasable (obj : FabricObject) : bool :=
  truthy (id (props obj))
  && negb (isRipple obj)
  && negb (bool_decide (globalCompositeOperation (props obj) = "destination-out")).

Definition removed_event (st : Client) (obj : FabricObject) : ClientMsg :=
  canvas_event (mkEvent (roomId st) "object:removed" (id (props obj)) None).

Section Eraser.

(** [obj.containsPoint(point)], the hit test of the rendering engine. *)
Variable containsPoint : FabricObject → Point → bool.

(** The loop of [handleScrubberMove], from the top of the canvas down:
    [below] are the objects still to visit, topmost first, [above] the
    visited ones that stayed. *)
Fixpoint scrub (pointer : Point) (below above : list FabricObject)
         (st : Client) : Client :=
  match below with
  | [] => st
  | obj :: below' =>
      if erasable obj && containsPoint obj pointer then
        let st1 := emit (removed_event st obj) st in
        let st2 := on_object_removed obj
                     (set_canvas (reverse below' ++ above) st1) in
        scrub pointer below' above st2
      else scrub pointer below' (obj :: above) st
  end.

Definition handleScrubberMove (e : MouseEvent) (st : Client) : Client :=
  if bool_decide (activeToolRef st = "eraser") then
    let st1 :=
      if bool_decide (buttons e = 1) && negb (isEraserDraggingRef st)
      then set_isEraserDragging true st else st in
    let st2 :=
      if bool_decide (buttons e = 0) && isEraserDraggingRef st1
      then set_isEraserDragging false st1 else st1 in
    if isEraserDraggingRef st2 then
      scrub (pointer e) (reverse (canvas st2)) [] st2
    else st2
  else st.

(** The position of the topmost object under the point: the manual hit
    detection of the [mouse:down] listener. *)
Fixpoint topmost (point : Point) (objs : list FabricObject) (i : nat)
  : option nat :=
  match objs with
  | [] => None
  | obj :: rest =>
      match topmost point rest (S i) with
      | Some j => Some j
      | None => if containsPoint obj point then Some i else None
      end
  end.

(** [mouse:down] with the eraser; [opt_target] is the position of
    [opt.target], if the engine found one. *)
Definition on_mouse_down (opt_target : option nat) (point : Point)
           (st : Client) : Client :=
  if bool_decide (activeToolRef st = "eraser") then
    let st1 := set_isEraserDragging true st in
    let target :=
      match opt_target with
      | Some i => Some i
      | None => topmost point (canvas st1) 0
      end in
    match target with
    | Some i =>
        match canvas st1 !! i with
        | Some obj =>
            if erasable obj then
              let st2 := emit (removed_event st1 obj) st1 in
              saveHistory
                (on_object_removed obj
                   (set_canvas (take i (canvas st2) ++ drop (S i) (canvas st2)) st2))
            else st1
        | None => st1
        end
    | None => st1
    end
  else st.

Definition on_mouse_up (st : Client) : Client :=
  set_isEraserDragging false st.

End Eraser.

(** *** The callbacks the hook returns

    What the rendering engine, the random source and the media decoders
    supply is an argument: [Math.random()] ids as the stream [ids], the
    centre of the canvas, the current selection, a decoded upload. *)

Definition added_event (st : Client) (propertiesToInclude : list string)
           (obj : FabricObject) : ClientMsg :=
  canvas_event
    (mkEvent (roomId st) "object:added" (id (props obj))
             (Some (toObject propertiesToInclude obj))).

Definition clear_event (st : Client) : ClientMsg :=
  canvas_event (mkEvent (roomId st) "clear" None None).

(** [c.add(obj)], then the event built from [obj] as the listener left
    it, then [saveHistory()]: the tail shared by the callbacks that
    create one object. *)
Definition add_and_announce (propertiesToInclude : list string)
           (obj : FabricObject) (st : Client) : Client :=
  let st1 := canvas_add obj st in
  let obj' := default obj (last (canvas st1)) in
  saveHistory (emit (added_event st1 propertiesToInclude obj') st1).

Definition shape_props : list string :=
  ["id"; "stroke"; "strokeWidth"; "globalCompositeOperation"; "objectCaching"].

(** The constructor switch of [addShape]. *)
Definition shape_type (type : string) : option string :=
  if bool_decide (type = "square") then Some "rect"
  else if bool_decide (type = "circle") then Some "circle"
  else if bool_decide (type = "triangle") then Some "triangle"
  else None.

Definition addShape (type shapeId : string) (center : Z * Z) (style : string)
           (st : Client) : Client :=
  if isReadOnly st then st
  else
    match shape_type type with
    | Some ty =>
        let shape :=
          mkObject (mkProps (Some shapeId) ty (fst center) (snd center)
                            "source-over" true style) [] false false in
        add_and_announce shape_props shape st
    | None => st
    end.

Definition addText (textId : string) (center : Z * Z) (style : string)
           (st : Client) : Client :=
  if isReadOnly st then st
  else
    let text :=
      mkObject (mkProps (Some textId) "i-text" (fst center) (snd center)
                        "source-over" true style) [] false false in
    add_and_announce ["id"] text st.

(** The selection of the rendering engine: the positions of the selected
    objects on the canvas, whether one of them is a text being edited, and
    the properties of the [ActiveSelection] wrapper that
    [getActiveObject()] returns when several objects are selected. *)
Record Selection := mkSelection {
  members : list nat;
  isEditing : bool;
  wrapper : Props;
}.

Definition getActiveObjects (sel : Selection) (st : Client)
  : list FabricObject :=
  omap (λ i, canvas st !! i) (members sel).

Definition getActiveObject (sel : Selection) (st : Client)
  : option FabricObject :=
  match getActiveObjects sel st with
  | [] => None
  | [obj] => Some obj
  | objs => Some (mkObject (wrapper sel) (props <$> objs) false false)
  end.

(** [active.forEach(obj => { if (obj.id) emit(...); c.remove(obj) })]:
    the canvas is carried with the original position of each object, so
    that an object is found by identity after others were removed. *)
Fixpoint remove_each (positions : list nat)
         (tagged : list (nat * FabricObject)) (st : Client) : Client :=
  match positions with
  | [] => st
  | i :: positions' =>
      match list_find (λ x, fst x = i) tagged with
      | Some (_, (_, obj)) =>
          let st1 :=
            if truthy (id (props obj)) then emit (removed_event st obj) st
            else st in
          let tagged' := filter (λ x, fst x ≠ i) tagged in
          remove_each positions' tagged'
            (on_object_removed obj (set_canvas (snd <$> tagged') st1))
      | None => remove_each positions' tagged st
      end
  end.

Definition remove_selected (sel : Selection) (st : Client) : Client :=
  remove_each (members sel) (imap (λ i obj, (i, obj)) (canvas st)) st.

Definition deleteSelected (sel : Selection) (st : Client) : Client :=
  if isReadOnly st then st
  else if bool_decide (getActiveObjects sel st = []) then st
  else if isEditing sel then st
  else saveHistory (remove_selected sel st).

Definition copy (sel : Selection) (st : Client) : Client :=
  match getActiveObject sel st with
  | Some active => set_clipboard (Some (clone history_props active)) st
  | None => st
  end.

(** [forEachObject(obj => { obj.id = random; c.add(obj) })] on a cloned
    active selection; yields the members as the listener left them. *)
Fixpoint add_members (ids : nat → string) (k : nat) (ms : list Props)
         (st : Client) : list Props * Client :=
  match ms with
  | [] => ([], st)
  | p :: rest =>
      let child := mkObject (set_id (Some (ids k)) p) [] false false in
      let st1 := canvas_add child st in
      let p' := props (default child (last (canvas st1))) in
      let '(ps, st2) := add_members ids (S k) rest st1 in
      (p' :: ps, st2)
  end.

(** The body shared by [paste] and [duplicate]: clone, shift, give a new
    id, add (member by member for an active selection), announce, record. *)
Definition place_clone (offset : Z) (ids : nat → string)
           (source : FabricObject) (st : Client) : Client :=
  let cloned := clone history_props source in
  let clonedObj :=
    set_props
      (set_id (Some (ids 0%nat))
         (set_position (left (props cloned) + offset)
                       (top (props cloned) + offset) (props cloned)))
      cloned in
  let '(clonedObj', st1) :=
    if bool_decide (type (props clonedObj) = "activeSelection") then
      let '(ms, st1) := add_members ids 1 (objects clonedObj) st in
      (set_objects ms clonedObj, st1)
    else
      let st1 := canvas_add clonedObj st in
      (default clonedObj (last (canvas st1)), st1) in
  saveHistory (emit (added_event st1 history_props clonedObj') st1).

(** [paste] has no [isReadOnly] test. *)
Definition paste (ids : nat → string) (st : Client) : Client :=
  match clipboardRef st with
  | Some clip => place_clone 20 ids clip st
  | None => st
  end.

Definition cut (sel : Selection) (st : Client) : Client :=
  if isReadOnly st then st
  else
    match getActiveObject sel st with
    | Some active =>
        let st1 := set_clipboard (Some (clone history_props active)) st in
        saveHistory (remove_selected sel st1)
    | None => st
    end.

Definition duplicate (sel : Selection) (ids : nat → string) (st : Client)
  : Client :=
  if isReadOnly st then st
  else
    match getActiveObject sel st with
    | Some active => place_clone 15 ids active st
    | None => st
    end.

Definition resetWhiteboard (st : Client) : Client :=
  if isReadOnly st then st
  else
    let st1 := canvas_clear st in
    let initialJson := toJSON history_props (canvas st1) in
    let st2 := set_history (History.mk [initialJson] []) st1 in
    emit (clear_event st2) (set_clipboard None st2).

(** [uploadImage]: [decoded] is the image or audio card the decoders
    build from the file, with its random id, or nothing for a file they
    reject. *)
Definition uploadImage (decoded : option FabricObject) (st : Client)
  : Client :=
  if isReadOnly st then st
  else
    match decoded with
    | Some img => add_and_announce history_props img st
    | None => st
    end.

Definition clearCanvas (st : Client) : Client :=
  if isReadOnly st then st
  else saveHistory (emit (clear_event st) (canvas_clear st)).

End Whiteboard.

Import Whiteboard.

(** ** The relay server *)

Module Relay.

(** The adapter of the Socket.IO server: for each room name the set of
    the ids of the sockets in it. *)
Record Server := mkServer {
  rooms : gmap string (gset string);
}.

Definition members (r : string) (sv : Server) : gset string :=
  default ∅ (rooms sv !! r).

(** [socket.join(r)] *)
Definition join (socket r : string) (sv : Server) : Server :=
  mkServer (<[r := {[socket]} ∪ members r sv]> (rooms sv)).

(** A socket that connects is put in the room named by its own id. *)
Definition on_connection (socket : string) (sv : Server) : Server :=
  join socket socket sv.

(** A socket that disconnects leaves every room; empty rooms go. *)
Definition on_disconnect (socket : string) (sv : Server) : Server :=
  mkServer
    (filter (λ kv, snd kv ≠ ∅) ((λ s, s ∖ {[socket]}) <$> rooms sv)).

(** One [emit] of the server: the sockets it is written to. *)
Record Delivery := mkDelivery {
  recipients : gset string;
  message : ServerMsg;
}.

(** The three listeners registered for a connected [socket]. *)
Definition on_message (socket : string) (m : ClientMsg) (sv : Server)
  : Server * list Delivery :=
  match m with
  | join_room roomId =>
      let sv' := join socket roomId sv in
      (sv', [mkDelivery (members roomId sv' ∖ {[socket]})
                        (request_sync socket)])
  | canvas_event event =>
      (sv, [mkDelivery (members (room event) sv ∖ {[socket]})
                       (relayed_canvas_event event)])
  | sync_state _ state targetId =>
      (sv, [mkDelivery (members targetId sv) (load_state state)])
  end.

Definition start : Server := mkServer ∅.

End Relay.

Import Relay.

(** ** Concrete clients and servers used in the examples below *)

Module Scenario.

Definition plain (i : string) (x y : Z) : Props :=
  mkProps (Some i) "rect" x y "source-over" true "fill:#6366f1".

(** A locally drawn object and a replicated one. *)
Definition local_obj (i : string) (x y : Z) : FabricObject :=
  mkObject (plain i x y) [] false false.

Definition remote_obj (i : string) (x y : Z) : FabricObject :=
  mkObject (plain i x y) [] true false.

Definition teacher : Client := mount false "room-1" "select".
Definition student : Client := mount true "room-1" "select".

(** The teacher placed one square, then a circle. *)
Definition one_shape : Client :=
  addShape "square" "a" (200, 150) "fill:#6366f1" teacher.

Definition two_shapes : Client :=
  addShape "circle" "b" (220, 150) "fill:#f43f5e" one_shape.

(** The same boards once the teacher picked the eraser. *)
Definition one_shape_eraser : Client := on_tool_change "eraser" one_shape.

Definition two_shapes_eraser : Client := on_tool_change "eraser" two_shapes.



(** The teacher's board after three replicated additions, eraser picked. *)
Definition replicated (i : string) (x y : Z) : CanvasEvent :=
  mkEvent "room-1" "object:added" (Some i)
          (Some (toObject history_props (local_obj i x y))).

Definition three_remote_eraser : Client :=
  on_tool_change "eraser"
    (on_canvas_event (replicated "c" 210 170)
       (on_canvas_event (replicated "b" 220 150)
          (on_canvas_event (replicated "a" 200 150) teacher))).

(** A hit test: shapes are 100 wide and high around their centre. *)
Definition within (obj : FabricObject) (p : Point) : bool :=
  bool_decide (Z.abs (fst p - left (props obj)) ≤ 50)
  && bool_decide (Z.abs (snd p - top (props obj)) ≤ 50).


(** A board where [undo()] ran and its timer fired. *)
Definition undone : Client := restore_timeout (undo one_shape).

(** A student who received the square [a] and, for the sake of the
    callbacks that need one, holds a copy of it on the clipboard. *)
Definition student_board : Client :=
  set_clipboard (Some (local_obj "a" 200 150))
    (on_canvas_event (replicated "a" 200 150) student).

(** Selections of the first object and of the first two objects. *)
Definition whole : Props :=
  mkProps None "activeSelection" 210 150 "source-over" true "".

Definition pick_first : Selection := mkSelection [0%nat] false whole.

(** The teacher copied the square; then also pressed undo, whose restore
    is still running. *)
Definition copied : Client := copy pick_first one_shape.


(** Ids as [Math.random()] may hand them out. *)
Definition new_ids (n : nat) : string :=
  match n with
  | O => "n0"
  | S O => "n1"
  | _ => "n2"
  end.

(** The teacher received the square [a] from a peer, placed a circle
    and pressed undo. *)
Definition mixed_board : Client :=
  addShape "circle" "k" (10, 10) ""
           (on_canvas_event (replicated "a" 200 150) teacher).

Definition mixed_undone : Client := undo mixed_board.


End Scenario.

(** ** Notions the statements below are phrased with *)

(** The references and props an operation on the canvas leaves alone. *)
Definition same_refs (st st' : Client) : Prop :=
  isReadOnly st' = isReadOnly st
  ∧ roomId st' = roomId st
  ∧ activeToolRef st' = activeToolRef st
  ∧ isRestoringRef st' = isRestoringRef st
  ∧ clipboardRef st' = clipboardRef st
  ∧ isEraserDraggingRef st' = isEraserDraggingRef st.

(** What the [object:removed] listener emits for a removed object. *)
Definition listener_broadcast (st : Client) (obj : FabricObject)
  : list ClientMsg :=
  if bool_decide (activeToolRef st = "eraser")
     && truthy (id (props obj)) && negb (remote obj)
  then [removed_event st obj] else [].

(** What the [object:added] listener makes of an added object. *)
Definition retouch (st : Client) (obj : FabricObject) : FabricObject :=
  if isReadOnly st || bool_decide (activeToolRef st = "eraser")
  then set_props (set_objectCaching false (props obj)) obj
  else obj.

(** The drawable content of an object: its serialisable properties other
    than the caching hint, and those of its members. *)
Definition drawable (obj : FabricObject) : Props * list Props :=
  (set_objectCaching true (props obj),
   set_objectCaching true <$> objects obj).

(** Calls that drive the history stack: the two callbacks and the timer
    that ends a restore. *)
Inductive HistoryCall := call_undo | call_redo | timer_fires.

Definition run_history (calls : list HistoryCall) (st : Client) : Client :=
  foldl (λ acc call,
           match call with
           | call_undo => undo acc
           | call_redo => redo acc
           | timer_fires => restore_timeout acc
           end) st calls.

(** Whether the eraser takes an object at a point, given the hit test. *)
Definition erased_at (containsPoint : FabricObject → Point → bool)
           (p : Point) (obj : FabricObject) : bool :=
  erasable obj && containsPoint obj p.


(** The clone [paste] and [duplicate] make of a single object: shifted by
    [offset] both ways, under the first id of the stream. *)
Definition shifted_clone (offset : Z) (ids : nat → string)
           (source : FabricObject) : FabricObject :=
  mkObject
    (set_id (Some (ids 0%nat))
       (set_position (left (props source) + offset)
                     (top (props source) + offset) (props source)))
    (objects source) false false.


(** ** Further listeners and callbacks of the hook *)

(** [path:created]: the brush has put the finished path on top of the
    canvas and hands it to the listener.  The path gets an id; under the
    eraser it is turned into an erasure mask ([masked] is its style once
    the fill and line caps are overwritten) and, if it is smaller than 5
    both ways, taken off again without a word; else it is announced. *)
Definition on_path_created (pathId : string) (masked : string)
           (width height : Z) (st : Client) : Client :=
  match last (canvas st) with
  | None => st
  | Some path0 =>
      let eraser := bool_decide (activeToolRef st = "eraser") in
      let p1 := set_id (Some pathId) (props path0) in
      let p2 :=
        if eraser then
          mkProps (id p1) (type p1) (left p1) (top p1) "destination-out"
                  false masked
        else p1 in
      let path := set_props p2 path0 in
      if eraser && bool_decide (width < 5) && bool_decide (height < 5) then
        on_object_removed path (set_canvas (removelast (canvas st)) st)
      else
        let st1 := set_canvas (removelast (canvas st) ++ [path]) st in
        emit (added_event st1 history_props path) st1
  end.

(** A stroke of the free-drawing brush: [canvas.add(path)], then
    [path:created]. *)
Definition free_draw (path : FabricObject) (pathId masked : string)
           (width height : Z) (st : Client) : Client :=
  on_path_created pathId masked width height (canvas_add path st).

(** The [mouse:down] listener of the text tool.  [lastTextClickTime] is
    the variable of the effect, [now] the value of [Date.now()], [target]
    whether an object was hit; a text is made on a double click only. *)
Definition handleTextClick (now : Z) (target : bool) (pointer : Point)
           (textId style : string) (lastTextClickTime : Z) (st : Client)
  : Z * Client :=
  if bool_decide (activeToolRef st = "text") && negb (isReadOnly st) then
    let timeDiff := now - lastTextClickTime in
    if bool_decide (300 < timeDiff) || bool_decide (timeDiff = 0) then (now, st)
    else if target then (now, st)
    else
      let text :=
        mkObject (mkProps (Some textId) "i-text" (fst pointer) (snd pointer)
                          "source-over" true style) [] false false in
      (now, add_and_announce history_props text st)
  else (lastTextClickTime, st).

(** [showRipple]: a circle without id is put on the canvas ... *)
Definition showRipple (scenePoint : Point) (style : string) (st : Client)
  : Client :=
  canvas_add
    (mkObject (mkProps None "circle" (fst scenePoint) (snd scenePoint)
                       "source-over" true style) [] false false)
    st.

(** ... and taken off when its animation completes; [position] is where
    the circle sits by then, if it is still on the canvas. *)
Definition ripple_complete (position : option nat) (st : Client) : Client :=
  match position with
  | Some i =>
      match canvas st !! i with
      | Some ripple =>
          on_object_removed ripple (set_canvas (delete i (canvas st)) st)
      | None => st
      end
  | None => st
  end.

(** [testDraw]: a line is put on the canvas; [at_] is where the engine
    places it, [style] its stroke. *)
Definition testDraw (at_ : Point) (style : string) (st : Client) : Client :=
  canvas_add
    (mkObject (mkProps None "line" (fst at_) (snd at_) "source-over" true
                       style) [] false false)
    st.

(** Everything that can happen to a mounted client. *)
Inductive Action :=
| act_connect
| act_request_sync (requesterId : string)
| act_load_state (state : Snapshot)
| act_canvas_event (event : CanvasEvent)
| act_tool (tool : string)
| act_mouse_move (e : MouseEvent)
| act_mouse_down (opt_target : option nat) (point : Point)
| act_mouse_up
| act_free_draw (path : FabricObject) (pathId masked : string) (width height : Z)
| act_ripple (scenePoint : Point) (style : string)
| act_ripple_complete (position : option nat)
| act_testDraw (at_ : Point) (style : string)
| act_addShape (type shapeId : string) (center : Z * Z) (style : string)
| act_addText (textId : string) (center : Z * Z) (style : string)
| act_uploadImage (decoded : option FabricObject)
| act_deleteSelected (sel : Selection)
| act_copy (sel : Selection)
| act_paste (ids : nat → string)
| act_cut (sel : Selection)
| act_duplicate (sel : Selection) (ids : nat → string)
| act_clearCanvas
| act_resetWhiteboard
| act_undo
| act_redo
| act_restore_timeout.

Definition step (containsPoint : FabricObject → Point → bool)
           (a : Action) (st : Client) : Client :=
  match a with
  | act_connect => on_connect st
  | act_request_sync requesterId => on_request_sync requesterId st
  | act_load_state state => on_load_state state st
  | act_canvas_event event => on_canvas_event event st
  | act_tool tool => on_tool_change tool st
  | act_mouse_move e => handleScrubberMove containsPoint e st
  | act_mouse_down opt_target point =>
      on_mouse_down containsPoint opt_target point st
  | act_mouse_up => on_mouse_up st
  | act_free_draw path pathId masked width height =>
      free_draw path pathId masked width height st
  | act_ripple scenePoint style => showRipple scenePoint style st
  | act_ripple_complete position => ripple_complete position st
  | act_testDraw at_ style => testDraw at_ style st
  | act_addShape type shapeId center style =>
      addShape type shapeId center style st
  | act_addText textId center style => addText textId center style st
  | act_uploadImage decoded => uploadImage decoded st
  | act_deleteSelected sel => deleteSelected sel st
  | act_copy sel => copy sel st
  | act_paste ids => paste ids st
  | act_cut sel => cut sel st
  | act_duplicate sel ids => duplicate sel ids st
  | act_clearCanvas => clearCanvas st
  | act_resetWhiteboard => resetWhiteboard st
  | act_undo => undo st
  | act_redo => redo st
  | act_restore_timeout => restore_timeout st
  end.

Definition run (containsPoint : FabricObject → Point → bool)
           (actions : list Action) (st : Client) : Client :=
  foldl (λ acc a, step containsPoint a acc) st actions.

(** The length of [undo], and the states an operation may lead to
    without shortening it. *)
Definition undo_length (st : Client) : nat :=
  length (History.undo (historyRef st)).

Definition grows (st st' : Client) : Prop :=
  (undo_length st ≤ undo_length st')%nat.

(** The object that carries the tag [i] in a canvas tagged with
    positions, as [remove_each] looks it up. *)
Definition tagged_lookup (i : nat) (tagged : list (nat * FabricObject))
  : option FabricObject :=
  (λ found, snd (snd found)) <$> list_find (λ x, fst x = i) tagged.

(** What the removal of one selected object emits: the event of the
    callback for an object with an id, then what the listener adds. *)
Definition delete_events (st : Client) (obj : FabricObject) : list ClientMsg :=
  (if truthy (id (props obj)) then [removed_event st obj] else [])
    ++ listener_broadcast st obj.

(** The canvas without the objects at the given positions. *)
Definition without (positions : list nat) (objs : list FabricObject)
  : list FabricObject :=
  snd <$> filter (λ x, fst x ∉ positions) (imap (λ i obj, (i, obj)) objs).


(** What reaches the relay: a socket connects, disconnects or sends one
    of the three messages. *)
Inductive Input :=
| connects (socket : string)
| disconnects (socket : string)
| sends (socket : string) (m : ClientMsg).

Definition serve_one (i : Input) (sv : Server) : Server * list Delivery :=
  match i with
  | connects socket => (on_connection socket sv, [])
  | disconnects socket => (on_disconnect socket sv, [])
  | sends socket m => on_message socket m sv
  end.

(** The relay over a sequence of inputs, with all it wrote. *)
Fixpoint serve (inputs : list Input) (sv : Server)
  : Server * list Delivery :=
  match inputs with
  | [] => (sv, [])
  | i :: rest =>
      let '(sv1, ds1) := serve_one i sv in
      let '(sv2, ds2) := serve rest sv1 in
      (sv2, ds1 ++ ds2)
  end.

(** What a snapshot keeps of an object whatever properties are listed. *)
Definition shape_of (p : Props) : string * Z * Z * string * string :=
  (type p, left p, top p, globalCompositeOperation p, payload p).

(** * Properties *)

(** ** The relay *)

(** C2. A [canvas-event] from socket [s] tagged with room [r] is written,
    unchanged and whatever its shape, to the members of [r] other than
    [s] and to nobody else; the server state stays as it was. *)
Theorem relay_fanout_excludes_sender (sv : Server) (s : string)
        (event : CanvasEvent) :
  ∃ d, on_message s (canvas_event event) sv = (sv, [d])
       ∧ message d = relayed_canvas_event event
       ∧ (∀ c, c ∈ recipients d ↔ c ∈ members (room event) sv ∧ c ≠ s)
       ∧ s ∉ recipients d.
Proof.
  eexists; split; [reflexivity|]; simpl.
  split; [reflexivity|]. split.
  - intros c. rewrite elem_of_difference, elem_of_singleton. reflexivity.
  - rewrite elem_of_difference, elem_of_singleton. tauto.
Qed.


(** What a client does with a [request-sync]. *)
Lemma on_request_sync_emitted (requesterId : string) (st : Client) :
  emitted (on_request_sync requesterId st)
  = if isReadOnly st then emitted st
    else emitted st
           ++ [sync_state (roomId st) (toJSON [] (canvas st)) requesterId].
Proof. unfold on_request_sync. destruct (isReadOnly st); reflexivity. Qed.




(** ** The history stack *)

Lemma saveHistory_restoring (st : Client) :
  isRestoringRef st = true → saveHistory st = st.
Proof. unfold saveHistory. intros ->. reflexivity. Qed.

Lemma saveHistory_same_top (st : Client) :
  last (History.undo (historyRef st)) = Some (toJSON history_props (canvas st)) →
  saveHistory st = st.
Proof.
  unfold saveHistory. intros Htop. destruct (isRestoringRef st); [reflexivity|].
  rewrite bool_decide_eq_true_2 by exact Htop. reflexivity.
Qed.

Lemma saveHistory_push (st : Client) :
  isRestoringRef st = false →
  last (History.undo (historyRef st)) ≠ Some (toJSON history_props (canvas st)) →
  saveHistory st
  = set_history
      (History.mk (History.undo (historyRef st)
                     ++ [toJSON history_props (canvas st)]) []) st.
Proof.
  unfold saveHistory. intros -> Htop.
  rewrite bool_decide_eq_false_2 by exact Htop. reflexivity.
Qed.

(** [saveHistory] touches the history and nothing else. *)
Lemma saveHistory_frame (st : Client) :
  canvas (saveHistory st) = canvas st
  ∧ emitted (saveHistory st) = emitted st
  ∧ isRestoringRef (saveHistory st) = isRestoringRef st
  ∧ clipboardRef (saveHistory st) = clipboardRef st
  ∧ activeToolRef (saveHistory st) = activeToolRef st
  ∧ isReadOnly (saveHistory st) = isReadOnly st
  ∧ roomId (saveHistory st) = roomId st
  ∧ isEraserDraggingRef (saveHistory st) = isEraserDraggingRef st.
Proof.
  unfold saveHistory. destruct (isRestoringRef st) eqn:E; [by rewrite E|].
  case_bool_decide; simpl; by rewrite ?E.
Qed.

(** After [saveHistory] the top of [undo] is the current snapshot, unless
    a restore is running. *)
Lemma saveHistory_top (st : Client) :
  isRestoringRef st = false →
  last (History.undo (historyRef (saveHistory st)))
  = Some (toJSON history_props (canvas st)).
Proof.
  intros Hr. unfold saveHistory. rewrite Hr. case_bool_decide as Htop.
  - exact Htop.
  - simpl. apply last_snoc.
Qed.

Lemma saveHistory_idempotent (st : Client) :
  saveHistory (saveHistory st) = saveHistory st.
Proof.
  destruct (isRestoringRef st) eqn:Hr.
  - rewrite (saveHistory_restoring st Hr). apply saveHistory_restoring, Hr.
  - apply saveHistory_same_top.
    destruct (saveHistory_frame st) as (Hc & _). rewrite Hc.
    apply saveHistory_top, Hr.
Qed.

(** [undo] never shrinks and grows by one entry at most. *)
Lemma saveHistory_length (st : Client) :
  (length (History.undo (historyRef st))
   ≤ length (History.undo (historyRef (saveHistory st))))%nat
  ∧ (length (History.undo (historyRef (saveHistory st)))
     ≤ S (length (History.undo (historyRef st))))%nat.
Proof.
  unfold saveHistory. destruct (isRestoringRef st); [lia|].
  case_bool_decide; simpl; rewrite ?length_app; simpl; lia.
Qed.

(** C4, as the code has it.  [saveHistory] empties [redo] whenever it
    appends a snapshot; when the snapshot is identical to the top of
    [undo] it changes nothing, so [redo] stays as it was; two calls with
    no change of the model in between append one entry at most. *)
Theorem saveHistory_contract (st : Client) :
  (History.undo (historyRef (saveHistory st)) ≠ History.undo (historyRef st) →
   History.redo (historyRef (saveHistory st)) = [])
  ∧ (isRestoringRef st = false →
   last (History.undo (historyRef st)) ≠ Some (toJSON history_props (canvas st)) →
   History.undo (historyRef (saveHistory st))
   = History.undo (historyRef st) ++ [toJSON history_props (canvas st)]
   ∧ History.redo (historyRef (saveHistory st)) = [])
  ∧ (last (History.undo (historyRef st)) = Some (toJSON history_props (canvas st)) →
     saveHistory st = st)
  ∧ saveHistory (saveHistory st) = saveHistory st
  ∧ (length (History.undo (historyRef (saveHistory (saveHistory st))))
     ≤ S (length (History.undo (historyRef st))))%nat.
Proof.
  split; [|split; [|split; [|split]]].
  - unfold saveHistory. destruct (isRestoringRef st); [done|].
    case_bool_decide; done.
  - intros Hr Htop. rewrite saveHistory_push by assumption. split; reflexivity.
  - apply saveHistory_same_top.
  - apply saveHistory_idempotent.
  - rewrite saveHistory_idempotent. apply saveHistory_length.
Qed.

(** The contract of [saveHistory] at the board with one square, before
    and after the square is taken off the canvas. *)
Lemma saveHistory_contract_witness :
  saveHistory Scenario.one_shape = Scenario.one_shape
  ∧ History.redo (historyRef (saveHistory (set_canvas [] Scenario.one_shape)))
    = []
  ∧ length (History.undo
              (historyRef (saveHistory (set_canvas [] Scenario.one_shape))))
    = 3%nat.
Proof.
  destruct (saveHistory_contract Scenario.one_shape) as (_ & _ & Hsame & _).
  destruct (saveHistory_contract (set_canvas [] Scenario.one_shape))
    as (_ & Hpush & _).
  destruct Hpush as (Hu & Hr); [reflexivity|discriminate|].
  split; [apply Hsame; reflexivity|]. split; [exact Hr|].
  rewrite Hu. reflexivity.
Defined.

(** C4 as stated fails: after an undo the canvas is empty, the top of
    [undo] is the empty snapshot and [redo] holds the undone one;
    [saveHistory] then finds nothing new and leaves [redo] filled. *)
Lemma saveHistory_keeps_redo :
  isRestoringRef Scenario.undone = false
  ∧ History.redo (historyRef Scenario.undone) ≠ []
  ∧ History.redo (historyRef (saveHistory Scenario.undone))
    = History.redo (historyRef Scenario.undone)
  ∧ History.redo (historyRef (saveHistory Scenario.undone)) ≠ [].
Proof. repeat split; vm_compute; (reflexivity || discriminate). Qed.

(** ** The canvas operations and their listeners *)

Lemma same_refs_refl (st : Client) : same_refs st st.
Proof. repeat split. Qed.

Lemma same_refs_trans (a b c : Client) :
  same_refs a b → same_refs b c → same_refs a c.
Proof.
  unfold same_refs. intros (?&?&?&?&?&?) (?&?&?&?&?&?).
  repeat split; congruence.
Qed.

Lemma saveHistory_refs (st : Client) : same_refs st (saveHistory st).
Proof.
  destruct (saveHistory_frame st) as (?&?&?&?&?&?&?&?). repeat split; done.
Qed.

Lemma listener_broadcast_refs (st st' : Client) (obj : FabricObject) :
  same_refs st st' → listener_broadcast st' obj = listener_broadcast st obj.
Proof.
  intros (_ & Hroom & Htool & _). unfold listener_broadcast, removed_event.
  by rewrite Hroom, Htool.
Qed.

Lemma retouch_refs (st st' : Client) (obj : FabricObject) :
  same_refs st st' → retouch st' obj = retouch st obj.
Proof. intros (Hro & _ & Htool & _). unfold retouch. by rewrite Hro, Htool. Qed.

Lemma on_object_removed_spec (target : FabricObject) (st : Client) :
  let st' := on_object_removed target st in
  same_refs st st'
  ∧ canvas st' = canvas st
  ∧ emitted st' = emitted st ++ listener_broadcast st target
  ∧ (isRestoringRef st = true ∨ remote target = true →
     historyRef st' = historyRef st).
Proof.
  unfold on_object_removed, listener_broadcast, removed_event.
  set (st1 := if negb (remote target) then saveHistory st else st).
  assert (Hrefs : same_refs st st1).
  { subst st1. destruct (remote target); [apply same_refs_refl|apply saveHistory_refs]. }
  assert (Hc : canvas st1 = canvas st ∧ emitted st1 = emitted st).
  { subst st1. destruct (remote target); [done|].
    destruct (saveHistory_frame st) as (?&?&_). done. }
  assert (Hh : isRestoringRef st = true ∨ remote target = true →
               historyRef st1 = historyRef st).
  { subst st1. intros [Hr|Hr]; destruct (remote target); try done.
    by rewrite saveHistory_restoring. }
  destruct Hrefs as (Hro & Hroom & Htool & Hrest & Hclip & Hdrag).
  destruct Hc as (Hc & He). rewrite <- Htool, <- Hroom.
  destruct (bool_decide (activeToolRef st1 = "eraser")); simpl;
    [destruct (truthy (id (props target)) && negb (remote target)); simpl|];
    rewrite ?app_nil_r; repeat split; try done; by rewrite He.
Qed.

Lemma canvas_remove_where_spec (sel : FabricObject → bool)
      (todo kept : list FabricObject) (st : Client) :
  canvas st = kept ++ todo →
  let st' := canvas_remove_where sel kept todo st in
  same_refs st st'
  ∧ canvas st' = kept ++ filter (λ obj, sel obj = false) todo
  ∧ emitted st'
    = emitted st
        ++ flat_map (listener_broadcast st) (filter (λ obj, sel obj = true) todo)
  ∧ (isRestoringRef st = true → historyRef st' = historyRef st).
Proof.
  revert kept st. induction todo as [|obj rest IH]; intros kept st Hc; simpl.
  - rewrite app_nil_r in Hc. rewrite !app_nil_r. repeat split; done.
  - destruct (sel obj) eqn:Hsel.
    + rewrite filter_cons_False by congruence.
      rewrite filter_cons_True by done. simpl.
      set (st0 := set_canvas (kept ++ rest) st).
      destruct (on_object_removed_spec obj st0) as (Hrefs & Hcan & Hem & Hh).
      assert (Hrefs0 : same_refs st (on_object_removed obj st0))
        by (destruct Hrefs as (?&?&?&?&?&?); repeat split; done).
      destruct (IH kept (on_object_removed obj st0)) as (Hrefs' & Hcan' & Hem' & Hh').
      { by rewrite Hcan. }
      split; [eapply same_refs_trans; eassumption|].
      split; [exact Hcan'|]. split.
      * rewrite Hem', Hem. change (emitted st0) with (emitted st).
        rewrite <- app_assoc. f_equal.
        rewrite (listener_broadcast_refs st st0) by (repeat split).
        f_equal. apply flat_map_ext. intros o.
        by apply listener_broadcast_refs.
      * intros Hr. rewrite Hh'.
        -- apply Hh. by left.
        -- destruct Hrefs0 as (_ & _ & _ & -> & _). exact Hr.
    + rewrite filter_cons_True by done.
      rewrite filter_cons_False by congruence.
      destruct (IH (kept ++ [obj]) st) as (Hrefs' & Hcan' & Hem' & Hh').
      { by rewrite <- app_assoc. }
      rewrite <- app_assoc in Hcan'. repeat split; try done; apply Hrefs'.
Qed.

Lemma filter_none {A} (l : list A) : filter (λ _ : A, true = false) l = [].
Proof. induction l as [|x l IH]; [done|]. by rewrite filter_cons_False. Qed.

Lemma filter_all {A} (l : list A) : filter (λ _ : A, true = true) l = l.
Proof.
  induction l as [|x l IH]; [done|]. rewrite filter_cons_True by done.
  by f_equal.
Qed.

(** [clear] empties the canvas; the listener speaks for every object. *)
Lemma canvas_clear_spec (st : Client) :
  same_refs st (canvas_clear st)
  ∧ canvas (canvas_clear st) = []
  ∧ emitted (canvas_clear st)
    = emitted st ++ flat_map (listener_broadcast st) (canvas st)
  ∧ (isRestoringRef st = true → historyRef (canvas_clear st) = historyRef st).
Proof.
  destruct (canvas_remove_where_spec (λ _, true) (canvas st) [] st eq_refl)
    as (Hrefs & Hcan & Hem & Hh).
  rewrite filter_none in Hcan. rewrite filter_all in Hem.
  repeat split; try done; apply Hrefs.
Qed.

(** [add] puts the object on top; the listener records local additions
    and may switch the caching of the object off. *)
Lemma canvas_add_spec (obj : FabricObject) (st : Client) :
  let st' := canvas_add obj st in
  same_refs st st'
  ∧ canvas st' = canvas st ++ [retouch st obj]
  ∧ emitted st' = emitted st
  ∧ historyRef st'
    = (if remote obj then historyRef st
       else historyRef (saveHistory (set_canvas (canvas st ++ [obj]) st))).
Proof.
  unfold canvas_add, on_object_added, retouch.
  set (st0 := set_canvas (canvas st ++ [obj]) st).
  replace (last (canvas st0)) with (Some obj) by (symmetry; apply last_snoc).
  set (st1 := if negb (remote obj) then saveHistory st0 else st0).
  assert (Hrefs : same_refs st st1).
  { subst st1. destruct (remote obj); simpl; [repeat split|].
    apply (same_refs_trans st st0); [repeat split|apply saveHistory_refs]. }
  assert (Hc : canvas st1 = canvas st ++ [obj] ∧ emitted st1 = emitted st).
  { subst st1. destruct (remote obj); simpl; [done|].
    destruct (saveHistory_frame st0) as (-> & -> & _). done. }
  assert (Hh : historyRef st1
               = if remote obj then historyRef st else historyRef (saveHistory st0)).
  { subst st1. by destruct (remote obj). }
  destruct Hrefs as (Hro & Hroom & Htool & Hrest & Hclip & Hdrag).
  destruct Hc as (Hc & He). rewrite Hro, Htool.
  destruct (isReadOnly st || bool_decide (activeToolRef st = "eraser")); simpl.
  - rewrite Hc, removelast_last. repeat split; done.
  - repeat split; done.
Qed.

Lemma pick_history_props (p : Props) : pick history_props p = p.
Proof. by destruct p. Qed.

Lemma pick_history_props_list (ms : list Props) :
  pick history_props <$> ms = ms.
Proof.
  induction ms as [|m ms IH]; [done|].
  by rewrite fmap_cons, pick_history_props, IH.
Qed.

Lemma toObject_fromObject (s : Serialized) :
  toObject history_props (fromObject s) = s.
Proof.
  destruct s as [p ms]. unfold toObject, fromObject; simpl.
  by rewrite pick_history_props, pick_history_props_list.
Qed.

(** A snapshot written by [saveHistory] reads back as itself. *)
Lemma toJSON_fromObject (state : Snapshot) :
  toJSON history_props (fromObject <$> state) = state.
Proof.
  induction state as [|s state IH]; [done|]. simpl.
  rewrite toObject_fromObject. f_equal. exact IH.
Qed.

Lemma drawable_retouch (st : Client) (obj : FabricObject) :
  drawable (retouch st obj) = drawable obj.
Proof. unfold retouch. by destruct (_ || _). Qed.

Lemma retouch_neutral (st : Client) (obj : FabricObject) :
  isReadOnly st = false → activeToolRef st ≠ "eraser" → retouch st obj = obj.
Proof.
  intros Hro Htool. unfold retouch.
  by rewrite Hro, bool_decide_eq_false_2.
Qed.

(** Adding revived objects one by one while a restore is running. *)
Lemma add_revived_spec (state : Snapshot) (st : Client) :
  isRestoringRef st = true →
  let st' := foldl (λ acc s, canvas_add (fromObject s) acc) st state in
  same_refs st st'
  ∧ canvas st' = canvas st ++ ((λ s, retouch st (fromObject s)) <$> state)
  ∧ emitted st' = emitted st
  ∧ historyRef st' = historyRef st.
Proof.
  revert st. induction state as [|s state IH]; intros st Hr; simpl.
  - rewrite app_nil_r. repeat split.
  - destruct (canvas_add_spec (fromObject s) st) as (Hrefs & Hcan & Hem & Hh).
    simpl in Hh. rewrite saveHistory_restoring in Hh by exact Hr.
    simpl in Hh.
    destruct (IH (canvas_add (fromObject s) st)) as (Hrefs' & Hcan' & Hem' & Hh').
    { destruct Hrefs as (_ & _ & _ & -> & _). exact Hr. }
    split; [eapply same_refs_trans; eassumption|].
    split; [|split; congruence].
    rewrite Hcan', Hcan, <- app_assoc. simpl. do 2 f_equal.
    apply list_fmap_ext. intros _ x _. by apply retouch_refs.
Qed.

(** [loadFromJSON] while a restore is running: the canvas becomes the
    revived snapshot and the history is left alone; what is emitted is
    what the [object:removed] listener says about the old objects. *)
Lemma loadFromJSON_spec (state : Snapshot) (st : Client) :
  isRestoringRef st = true →
  let st' := loadFromJSON state st in
  same_refs st st'
  ∧ canvas st' = (λ s, retouch st (fromObject s)) <$> state
  ∧ emitted st' = emitted st ++ flat_map (listener_broadcast st) (canvas st)
  ∧ historyRef st' = historyRef st.
Proof.
  intros Hr. unfold loadFromJSON.
  destruct (canvas_clear_spec st) as (Hrefs & Hcan & Hem & Hh).
  destruct (add_revived_spec state (canvas_clear st)) as (Hrefs' & Hcan' & Hem' & Hh').
  { destruct Hrefs as (_ & _ & _ & -> & _). exact Hr. }
  split; [eapply same_refs_trans; eassumption|].
  split; [|split; [congruence|rewrite Hh'; by apply Hh]].
  rewrite Hcan', Hcan. simpl.
  apply list_fmap_ext. intros _ x _. by apply retouch_refs.
Qed.

Lemma undo_short (st : Client) :
  (length (History.undo (historyRef st)) ≤ 1)%nat → undo st = st.
Proof. intros Hl. unfold undo. by rewrite bool_decide_eq_true_2. Qed.

Lemma undo_step (st : Client) (hs : list Snapshot) (prev cur : Snapshot) :
  History.undo (historyRef st) = hs ++ [prev; cur] →
  undo st
  = loadFromJSON prev
      (set_history
         (History.mk (hs ++ [prev]) (History.redo (historyRef st) ++ [cur]))
         (set_isRestoring true st)).
Proof.
  intros Hu. unfold undo. rewrite Hu.
  rewrite bool_decide_eq_false_2.
  2: { rewrite length_app; simpl; lia. }
  replace (hs ++ [prev; cur]) with ((hs ++ [prev]) ++ [cur])
    by (by rewrite <- app_assoc).
  by rewrite last_snoc, removelast_last, last_snoc.
Qed.

Lemma redo_empty (st : Client) :
  History.redo (historyRef st) = [] → redo st = st.
Proof. intros Hr. unfold redo. by rewrite Hr. Qed.

Lemma redo_step (st : Client) (rs : list Snapshot) (next : Snapshot) :
  History.redo (historyRef st) = rs ++ [next] →
  redo st
  = loadFromJSON next
      (set_history (History.mk (History.undo (historyRef st) ++ [next]) rs)
                   (set_isRestoring true st)).
Proof.
  intros Hr. unfold redo. by rewrite Hr, last_snoc, removelast_last.
Qed.

(** ** Undo and redo *)

Lemma run_history_snoc (calls : list HistoryCall) (call : HistoryCall)
      (st : Client) :
  run_history (calls ++ [call]) st
  = match call with
    | call_undo => undo (run_history calls st)
    | call_redo => redo (run_history calls st)
    | timer_fires => restore_timeout (run_history calls st)
    end.
Proof. unfold run_history. by rewrite foldl_app. Qed.

Lemma undo_keeps_sentinel (st : Client) :
  History.undo (historyRef st) ≠ [] → History.undo (historyRef (undo st)) ≠ [].
Proof.
  intros Hne.
  destruct (History.undo (historyRef st)) as [|s0 l] eqn:Hu using rev_ind;
    [done|clear IHl].
  destruct l as [|prev l _] using rev_ind.
  - rewrite undo_short; [by rewrite Hu|]. rewrite Hu. simpl. lia.
  - rewrite <- app_assoc in Hu. simpl in Hu.
    rewrite (undo_step st l prev s0 Hu).
    destruct (loadFromJSON_spec prev
                (set_history
                   (History.mk (l ++ [prev]) (History.redo (historyRef st) ++ [s0]))
                   (set_isRestoring true st)) eq_refl) as (_ & _ & _ & ->).
    simpl. by destruct l.
Qed.

Lemma redo_keeps_sentinel (st : Client) :
  History.undo (historyRef st) ≠ [] → History.undo (historyRef (redo st)) ≠ [].
Proof.
  intros Hne.
  destruct (History.redo (historyRef st)) as [|next rs _] eqn:Hr using rev_ind.
  - by rewrite redo_empty.
  - rewrite (redo_step st rs next Hr).
    destruct (loadFromJSON_spec next
                (set_history
                   (History.mk (History.undo (historyRef st) ++ [next]) rs)
                   (set_isRestoring true st)) eq_refl) as (_ & _ & _ & ->).
    simpl. by destruct (History.undo (historyRef st)).
Qed.

Lemma run_history_keeps_sentinel (calls : list HistoryCall) (st : Client) :
  History.undo (historyRef st) ≠ [] →
  History.undo (historyRef (run_history calls st)) ≠ [].
Proof.
  intros Hne. induction calls as [|call calls IH] using rev_ind; [done|].
  rewrite run_history_snoc. destruct call.
  - by apply undo_keeps_sentinel.
  - by apply redo_keeps_sentinel.
  - done.
Qed.

(** C3. On a fresh document, and whenever [undo] holds a single snapshot,
    [undo()] changes nothing.  With [undo = [empty; snap]] one [undo()]
    empties the canvas, leaves [undo = [empty]] and pushes [snap] onto
    [redo]; a following [redo()] puts the objects of [snap] back (the very
    snapshot [snap] when the listener does not switch their caching off),
    with [undo = [empty; snap]] and [redo] as before.  No sequence of
    [undo()] and [redo()] calls, with the restore timer firing anywhere
    between them, empties [undo]. *)
Theorem undo_sentinel_round_trip (st : Client) (snap : Snapshot)
        (calls : list HistoryCall) :
  (∀ readOnly room tool,
      undo (mount readOnly room tool) = mount readOnly room tool)
  ∧ (∀ s0, History.undo (historyRef st) = [s0] → undo st = st)
  ∧ (History.undo (historyRef st) = [initialJson; snap] →
     canvas (undo st) = []
     ∧ History.undo (historyRef (undo st)) = [initialJson]
     ∧ History.redo (historyRef (undo st)) = History.redo (historyRef st) ++ [snap]
     ∧ drawable <$> canvas (redo (undo st)) = drawable <$> (fromObject <$> snap)
     ∧ (isReadOnly st = false → activeToolRef st ≠ "eraser" →
        toJSON history_props (canvas (redo (undo st))) = snap)
     ∧ History.undo (historyRef (redo (undo st))) = [initialJson; snap]
     ∧ History.redo (historyRef (redo (undo st))) = History.redo (historyRef st))
  ∧ (∀ readOnly room tool,
        History.undo
          (historyRef (run_history calls (mount readOnly room tool))) ≠ [])
  ∧ (History.undo (historyRef st) ≠ [] →
     History.undo (historyRef (run_history calls st)) ≠ []).
Proof.
  split; [|split; [|split; [|split]]].
  - reflexivity.
  - intros s0 Hu. apply undo_short. by rewrite Hu.
  - intros Hu.
    pose proof (undo_step st [] initialJson snap Hu) as Hundo. simpl in Hundo.
    set (st1 := set_history
                  (History.mk [initialJson] (History.redo (historyRef st) ++ [snap]))
                  (set_isRestoring true st)) in Hundo.
    destruct (loadFromJSON_spec initialJson st1 eq_refl)
      as (Hrefs & Hcan & _ & Hh).
    rewrite <- Hundo in Hrefs, Hcan, Hh.
    pose proof (redo_step (undo st) (History.redo (historyRef st)) snap) as Hredo.
    rewrite Hh in Hredo. specialize (Hredo eq_refl). simpl in Hredo.
    set (st2 := set_history
                  (History.mk [initialJson; snap] (History.redo (historyRef st)))
                  (set_isRestoring true (undo st))) in Hredo.
    destruct (loadFromJSON_spec snap st2 eq_refl) as (Hrefs2 & Hcan2 & _ & Hh2).
    rewrite <- Hredo in Hrefs2, Hcan2, Hh2.
    assert (Hro : isReadOnly st2 = isReadOnly st
                  ∧ activeToolRef st2 = activeToolRef st).
    { destruct Hrefs as (Hro & _ & Htool & _). by split. }
    rewrite Hcan, Hh, Hcan2, Hh2. simpl.
    repeat split; try done.
    + rewrite <- !list_fmap_compose. apply list_fmap_ext. intros _ s _. simpl.
      apply drawable_retouch.
    + intros Hread Htool. rewrite <- (toJSON_fromObject snap) at 2. f_equal.
      apply list_fmap_ext. intros _ s _. apply retouch_neutral.
      * destruct Hro as (-> & _). exact Hread.
      * destruct Hro as (_ & ->). exact Htool.
  - intros readOnly room tool. by apply run_history_keeps_sentinel.
  - apply run_history_keeps_sentinel.
Qed.

(** The claim of C3 at the teacher's board: empty, and with one square. *)
Lemma undo_sentinel_round_trip_witness :
  undo Scenario.teacher = Scenario.teacher
  ∧ canvas (undo Scenario.one_shape) = []
  ∧ toJSON history_props (canvas (redo (undo Scenario.one_shape)))
    = toJSON history_props (canvas Scenario.one_shape)
  ∧ History.undo
      (historyRef (run_history [call_undo; call_undo; call_redo; call_undo]
                               Scenario.one_shape)) ≠ [].
Proof.
  destruct (undo_sentinel_round_trip Scenario.teacher [] [])
    as (_ & Hfresh & _).
  destruct (undo_sentinel_round_trip Scenario.one_shape
              (toJSON history_props (canvas Scenario.one_shape))
              [call_undo; call_undo; call_redo; call_undo])
    as (_ & _ & Hround & _ & Hsent).
  destruct (Hround eq_refl) as (Hempty & _ & _ & _ & Hback & _).
  split; [exact (Hfresh initialJson eq_refl)|].
  split; [exact Hempty|].
  split; [apply Hback; [reflexivity|discriminate]|].
  apply Hsent. discriminate.
Defined.

(** What [undo()] and [redo()] emit: the [object:removed] listener speaks
    for every object the load takes off the canvas. *)
Lemma undo_emitted (st : Client) :
  (1 < length (History.undo (historyRef st)))%nat →
  emitted (undo st)
  = emitted st ++ flat_map (listener_broadcast st) (canvas st).
Proof.
  intros Hl.
  destruct (History.undo (historyRef st)) as [|cur l _] eqn:Hu using rev_ind;
    [simpl in Hl; lia|].
  destruct l as [|prev l _] using rev_ind; [simpl in Hl; lia|].
  rewrite <- app_assoc in Hu. simpl in Hu. rewrite (undo_step st l prev cur Hu).
  destruct (loadFromJSON_spec prev
              (set_history
                 (History.mk (l ++ [prev]) (History.redo (historyRef st) ++ [cur]))
                 (set_isRestoring true st)) eq_refl) as (_ & _ & -> & _).
  reflexivity.
Qed.

Lemma redo_emitted (st : Client) :
  History.redo (historyRef st) ≠ [] →
  emitted (redo st)
  = emitted st ++ flat_map (listener_broadcast st) (canvas st).
Proof.
  intros Hne.
  destruct (History.redo (historyRef st)) as [|next rs _] eqn:Hr using rev_ind;
    [done|].
  rewrite (redo_step st rs next Hr).
  destruct (loadFromJSON_spec next
              (set_history
                 (History.mk (History.undo (historyRef st) ++ [next]) rs)
                 (set_isRestoring true st)) eq_refl) as (_ & _ & -> & _).
  reflexivity.
Qed.

Lemma listener_silent (st : Client) (objs : list FabricObject) :
  activeToolRef st ≠ "eraser" → flat_map (listener_broadcast st) objs = [].
Proof.
  intros Htool. induction objs as [|obj objs IH]; [done|]. simpl.
  rewrite IH. unfold listener_broadcast.
  by rewrite bool_decide_eq_false_2.
Qed.

(** With any tool but the eraser, undo and redo emit nothing. *)
Lemma undo_redo_silent (st : Client) :
  activeToolRef st ≠ "eraser" →
  emitted (undo st) = emitted st ∧ emitted (redo st) = emitted st.
Proof.
  intros Htool. split.
  - destruct (decide (1 < length (History.undo (historyRef st)))%nat) as [Hl|Hl].
    + rewrite undo_emitted, listener_silent, app_nil_r; done.
    + rewrite undo_short; [done|lia].
  - destruct (decide (History.redo (historyRef st) = [])) as [Hr|Hr].
    + by rewrite redo_empty.
    + rewrite redo_emitted, listener_silent, app_nil_r; done.
Qed.

(** C7 fails while the eraser is the active tool.  The teacher placed a
    square [a] and picked the eraser: [undo()] emits [object:removed] for
    [a].  With a second shape [b], [undo()] emits it for [a] and [b] and
    the following [redo()] for [a] again. *)
Theorem undo_redo_emit_under_eraser :
  emitted (undo Scenario.one_shape_eraser)
  = emitted Scenario.one_shape_eraser
      ++ [canvas_event (mkEvent "room-1" "object:removed" (Some "a") None)]
  ∧ emitted (undo Scenario.two_shapes_eraser)
    = emitted Scenario.two_shapes_eraser
        ++ [canvas_event (mkEvent "room-1" "object:removed" (Some "a") None);
            canvas_event (mkEvent "room-1" "object:removed" (Some "b") None)]
  ∧ emitted (redo (undo Scenario.two_shapes_eraser))
    = emitted (undo Scenario.two_shapes_eraser)
        ++ [canvas_event (mkEvent "room-1" "object:removed" (Some "a") None)].
Proof. split; [|split]; vm_compute; reflexivity. Qed.

(** ** Replicated additions *)


Lemma remote_retouch (st : Client) (obj : FabricObject) :
  remote (retouch st obj) = remote obj
  ∧ id (props (retouch st obj)) = id (props obj).
Proof. unfold retouch. by destruct (_ || _). Qed.







(** ** The eraser *)



Section EraserProperties.

Variable containsPoint : FabricObject → Point → bool.

Lemma scrub_spec (p : Point) (below above : list FabricObject) (st : Client) :
  canvas st = reverse below ++ above →
  let st' := scrub containsPoint p below above st in
  same_refs st st'
  ∧ canvas st'
    = reverse (filter (λ obj, erased_at containsPoint p obj = false) below)
        ++ above
  ∧ emitted st'
    = emitted st
        ++ flat_map (λ obj, removed_event st obj :: listener_broadcast st obj)
                    (filter (λ obj, erased_at containsPoint p obj = true) below).
Proof.
  revert above st. induction below as [|obj below' IH]; intros above st Hc; simpl.
  - rewrite app_nil_r. repeat split. exact Hc.
  - fold (erased_at containsPoint p obj).
    destruct (erased_at containsPoint p obj) eqn:Hhit.
    + rewrite filter_cons_False by congruence.
      rewrite filter_cons_True by done. simpl.
      set (st1 := emit (removed_event st obj) st).
      set (st0 := set_canvas (reverse below' ++ above) st1).
      destruct (on_object_removed_spec obj st0) as (Hrefs & Hcan & Hem & _).
      assert (Hrefs0 : same_refs st (on_object_removed obj st0))
        by (destruct Hrefs as (?&?&?&?&?&?); repeat split; done).
      destruct (IH above (on_object_removed obj st0)) as (Hrefs' & Hcan' & Hem').
      { by rewrite Hcan. }
      split; [eapply same_refs_trans; eassumption|].
      split; [exact Hcan'|].
      rewrite Hem', Hem.
      change (emitted st0) with (emitted st ++ [removed_event st obj]).
      rewrite <- !app_assoc. simpl. do 2 f_equal.
      rewrite (listener_broadcast_refs st st0) by (repeat split).
      f_equal. apply flat_map_ext. intros o.
      rewrite (listener_broadcast_refs st _ o Hrefs0).
      unfold removed_event. by destruct Hrefs0 as (_ & -> & _).
    + rewrite filter_cons_True by done.
      rewrite filter_cons_False by congruence.
      destruct (IH (obj :: above) st) as (Hrefs' & Hcan' & Hem').
      { rewrite Hc, reverse_cons, <- app_assoc. done. }
      rewrite reverse_cons, <- app_assoc. repeat split; try done; apply Hrefs'.
Qed.




End EraserProperties.



(** ** The read-only role *)

(** C9. On a read-only client each of the eight guarded callbacks returns
    the client as it was, whatever its arguments: canvas, history,
    clipboard and emitted messages are unchanged. *)
Theorem read_only_guard (st : Client) :
  isReadOnly st = true →
  (∀ type shapeId center style, addShape type shapeId center style st = st)
  ∧ (∀ textId center style, addText textId center style st = st)
  ∧ (∀ sel, deleteSelected sel st = st)
  ∧ (∀ sel, cut sel st = st)
  ∧ (∀ sel ids, duplicate sel ids st = st)
  ∧ (∀ decoded, uploadImage decoded st = st)
  ∧ clearCanvas st = st
  ∧ resetWhiteboard st = st.
Proof.
  intros Hro.
  unfold addShape, addText, deleteSelected, cut, duplicate, uploadImage,
    clearCanvas, resetWhiteboard.
  rewrite Hro. repeat split.
Qed.

(** The theorem at the student who received a square. *)
Lemma read_only_guard_witness :
  addShape "square" "z" (10, 10) "" Scenario.student_board
  = Scenario.student_board
  ∧ cut Scenario.pick_first Scenario.student_board = Scenario.student_board
  ∧ clearCanvas Scenario.student_board = Scenario.student_board
  ∧ resetWhiteboard Scenario.student_board = Scenario.student_board.
Proof.
  destruct (read_only_guard Scenario.student_board eq_refl)
    as (Hshape & _ & _ & Hcut & _ & _ & Hclear & Hreset).
  split; [apply Hshape|]. split; [apply Hcut|]. split; assumption.
Defined.

(** ** Paste *)

Lemma clone_history_props (obj : FabricObject) :
  clone history_props obj = mkObject (props obj) (objects obj) false false.
Proof.
  unfold clone, fromObject, toObject. simpl.
  by rewrite pick_history_props, pick_history_props_list.
Qed.

Lemma place_clone_single (offset : Z) (ids : nat → string)
      (source : FabricObject) (st : Client) :
  type (props source) ≠ "activeSelection" →
  let obj := shifted_clone offset ids source in
  let st1 := canvas_add obj st in
  place_clone offset ids source st
  = saveHistory (emit (added_event st1 history_props (retouch st obj)) st1).
Proof.
  intros Hty. unfold place_clone. rewrite clone_history_props. simpl.
  rewrite bool_decide_eq_false_2 by exact Hty.
  change (set_props _ _) with (shifted_clone offset ids source).
  destruct (canvas_add_spec (shifted_clone offset ids source) st)
    as (_ & Hc & _).
  by rewrite Hc, last_snoc.
Qed.





(** * Further properties of the hook and the relay *)

(** ** Replicated removals and clears *)

Lemma canvas_remove_where_none (sel : FabricObject → bool)
      (todo kept : list FabricObject) (st : Client) :
  Forall (λ obj, sel obj = false) todo →
  canvas_remove_where sel kept todo st = st.
Proof.
  intros Hall. revert kept. induction Hall as [|obj rest Hobj _ IH]; intros kept.
  - reflexivity.
  - simpl. rewrite Hobj. apply IH.
Qed.

Lemma canvas_remove_where_skip (sel : FabricObject → bool)
      (skipped todo kept : list FabricObject) (st : Client) :
  Forall (λ obj, sel obj = false) skipped →
  canvas_remove_where sel kept (skipped ++ todo) st
  = canvas_remove_where sel (kept ++ skipped) todo st.
Proof.
  intros Hall. revert kept.
  induction Hall as [|obj rest Hobj _ IH]; intros kept; simpl.
  - by rewrite app_nil_r.
  - rewrite Hobj, IH, <- app_assoc. reflexivity.
Qed.

Lemma listener_broadcast_remote (st : Client) (obj : FabricObject) :
  remote obj = true → listener_broadcast st obj = [].
Proof.
  intros Hr. unfold listener_broadcast. rewrite Hr.
  by rewrite andb_false_r.
Qed.

(** Taking remote objects off the canvas is neither recorded nor
    announced. *)
Lemma canvas_remove_where_remote (sel : FabricObject → bool)
      (todo kept : list FabricObject) (st : Client) :
  Forall (λ obj, sel obj = true → remote obj = true) todo →
  historyRef (canvas_remove_where sel kept todo st) = historyRef st
  ∧ emitted (canvas_remove_where sel kept todo st) = emitted st.
Proof.
  intros Hall. revert kept st.
  induction Hall as [|obj rest Hobj _ IH]; intros kept st; simpl; [done|].
  destruct (sel obj) eqn:Hsel; [|apply IH].
  destruct (IH kept (on_object_removed obj (set_canvas (kept ++ rest) st)))
    as (-> & ->).
  destruct (on_object_removed_spec obj (set_canvas (kept ++ rest) st))
    as (_ & _ & Hem & Hh).
  rewrite Hh by (right; by apply Hobj).
  rewrite Hem, listener_broadcast_remote, app_nil_r by (by apply Hobj).
  done.
Qed.

Lemma on_object_removed_local (target : FabricObject) (st : Client) :
  remote target = false →
  historyRef (on_object_removed target st) = historyRef (saveHistory st).
Proof.
  intros Hr. unfold on_object_removed. rewrite Hr. simpl.
  destruct (bool_decide _); [destruct (_ && _)|]; reflexivity.
Qed.

Lemma on_canvas_event_removed (event : CanvasEvent) (st : Client) :
  ev_type event = "object:removed" →
  on_canvas_event event st
  = canvas_remove_where (λ obj, bool_decide (id (props obj) = ev_id event))
                        [] (canvas st) st.
Proof. intros Ht. unfold on_canvas_event. by rewrite Ht. Qed.

Lemma on_canvas_event_clear (event : CanvasEvent) (st : Client) :
  ev_type event = "clear" → on_canvas_event event st = canvas_clear st.
Proof. intros Ht. unfold on_canvas_event. by rewrite Ht. Qed.

(** X1. A received [object:removed] takes off every object that carries
    the id and keeps the others in their order; when no object carries
    it the client is left exactly as it was, so a removal that overtakes
    its addition is harmless and the addition still applies. *)
Theorem replicated_removal (st : Client) (event : CanvasEvent) :
  ev_type event = "object:removed" →
  canvas (on_canvas_event event st)
  = filter (λ obj, id (props obj) ≠ ev_id event) (canvas st)
  ∧ (Forall (λ obj, id (props obj) ≠ ev_id event) (canvas st) →
     on_canvas_event event st = st
     ∧ ∀ later, on_canvas_event later (on_canvas_event event st)
                = on_canvas_event later st).
Proof.
  intros Ht. rewrite on_canvas_event_removed by done. split.
  - destruct (canvas_remove_where_spec
                (λ obj, bool_decide (id (props obj) = ev_id event))
                (canvas st) [] st eq_refl) as (_ & -> & _).
    simpl. apply list_filter_iff. intros obj.
    rewrite bool_decide_eq_false. reflexivity.
  - intros Hnone.
    assert (Hsame : canvas_remove_where
                      (λ obj, bool_decide (id (props obj) = ev_id event))
                      [] (canvas st) st = st).
    { apply canvas_remove_where_none. eapply Forall_impl; [exact Hnone|].
      intros obj Hobj. by apply bool_decide_eq_false. }
    split; [exact Hsame|]. intros later. by rewrite Hsame.
Qed.

Lemma replicated_removal_witness :
  canvas (on_canvas_event (mkEvent "room-1" "object:removed" (Some "b") None)
                          Scenario.two_shapes)
  = [Scenario.local_obj "a" 200 150]
  ∧ on_canvas_event (mkEvent "room-1" "object:removed" (Some "x") None)
                    Scenario.two_shapes = Scenario.two_shapes.
Proof.
  destruct (replicated_removal Scenario.two_shapes
              (mkEvent "room-1" "object:removed" (Some "b") None) eq_refl)
    as (Hcan & _).
  destruct (replicated_removal Scenario.two_shapes
              (mkEvent "room-1" "object:removed" (Some "x") None) eq_refl)
    as (_ & Hnone).
  split; [rewrite Hcan; reflexivity|].
  apply Hnone. vm_compute. repeat constructor; discriminate.
Defined.



(** X3. A received [object:removed] or [clear] that only takes replicated
    (remote) objects off the canvas leaves the history as it was and
    emits nothing, whatever tool is active. *)
Theorem replicated_removal_of_remote_is_silent (st : Client)
        (event : CanvasEvent) :
  (ev_type event = "object:removed"
   ∧ Forall (λ obj, id (props obj) = ev_id event → remote obj = true)
            (canvas st))
  ∨ (ev_type event = "clear"
     ∧ Forall (λ obj, remote obj = true) (canvas st)) →
  historyRef (on_canvas_event event st) = historyRef st
  ∧ emitted (on_canvas_event event st) = emitted st.
Proof.
  intros [(Ht & Hall)|(Ht & Hall)].
  - rewrite on_canvas_event_removed by done.
    apply canvas_remove_where_remote. eapply Forall_impl; [exact Hall|].
    intros obj Hobj Hsel. apply Hobj. by apply bool_decide_eq_true in Hsel.
  - rewrite on_canvas_event_clear by done.
    apply canvas_remove_where_remote. eapply Forall_impl; [exact Hall|].
    intros obj Hobj _. exact Hobj.
Qed.

Lemma replicated_removal_of_remote_is_silent_witness :
  historyRef (on_canvas_event (mkEvent "room-1" "clear" None None)
                              Scenario.three_remote_eraser)
  = historyRef Scenario.three_remote_eraser
  ∧ emitted (on_canvas_event (mkEvent "room-1" "clear" None None)
                             Scenario.three_remote_eraser)
    = emitted Scenario.three_remote_eraser.
Proof.
  apply (replicated_removal_of_remote_is_silent Scenario.three_remote_eraser
           (mkEvent "room-1" "clear" None None)).
  right. split; [reflexivity|]. vm_compute. repeat constructor.
Defined.

(** X4. A received [object:removed] that takes a locally authored object
    off the canvas is recorded like a local edit: unless a restore is
    running, the top of [undo] becomes the snapshot of the canvas without
    the object, and [redo] is emptied when that snapshot is new. *)
Theorem replicated_removal_of_local_is_recorded (st : Client)
        (event : CanvasEvent) (below above : list FabricObject)
        (obj : FabricObject) :
  ev_type event = "object:removed" →
  canvas st = below ++ obj :: above →
  id (props obj) = ev_id event → remote obj = false →
  Forall (λ o, id (props o) ≠ ev_id event) (below ++ above) →
  isRestoringRef st = false →
  canvas (on_canvas_event event st) = below ++ above
  ∧ last (History.undo (historyRef (on_canvas_event event st)))
    = Some (toJSON history_props (below ++ above))
  ∧ (last (History.undo (historyRef st))
     ≠ Some (toJSON history_props (below ++ above)) →
     History.undo (historyRef (on_canvas_event event st))
     = History.undo (historyRef st) ++ [toJSON history_props (below ++ above)]
     ∧ History.redo (historyRef (on_canvas_event event st)) = []).
Proof.
  intros Ht Hc Hid Hloc Hothers Hrest.
  apply Forall_app in Hothers as (Hbelow & Habove).
  rewrite on_canvas_event_removed by done. rewrite Hc.
  set (sel := λ o : FabricObject, bool_decide (id (props o) = ev_id event)).
  assert (Hsel : ∀ l, Forall (λ o, id (props o) ≠ ev_id event) l →
                      Forall (λ o, sel o = false) l).
  { intros l Hl. eapply Forall_impl; [exact Hl|].
    intros o Ho. by apply bool_decide_eq_false. }
  rewrite (canvas_remove_where_skip sel below) by (by apply Hsel).
  change ([] ++ below) with below. simpl.
  assert (Hobj : sel obj = true) by (by apply bool_decide_eq_true).
  rewrite Hobj.
  rewrite canvas_remove_where_none by (by apply Hsel).
  set (st0 := set_canvas (below ++ above) st).
  destruct (on_object_removed_spec obj st0) as (_ & Hcan & _).
  rewrite Hcan, (on_object_removed_local obj st0 Hloc).
  split; [done|]. split.
  - apply (saveHistory_top st0 Hrest).
  - intros Hnew. rewrite (saveHistory_push st0 Hrest Hnew). done.
Qed.

Lemma replicated_removal_of_local_is_recorded_witness :
  length (History.undo
            (historyRef
               (on_canvas_event
                  (mkEvent "room-1" "object:removed" (Some "b") None)
                  Scenario.two_shapes))) = 4%nat.
Proof.
  destruct (replicated_removal_of_local_is_recorded Scenario.two_shapes
              (mkEvent "room-1" "object:removed" (Some "b") None)
              [Scenario.local_obj "a" 200 150] []
              (mkObject (mkProps (Some "b") "circle" 220 150 "source-over"
                                 true "fill:#f43f5e") [] false false)
              eq_refl eq_refl eq_refl eq_refl)
    as (_ & _ & Hpush); [|reflexivity|].
  { repeat constructor. discriminate. }
  destruct Hpush as (Hu & _); [vm_compute; discriminate|].
  rewrite Hu. reflexivity.
Defined.

(** ** Joining a room *)


Lemma pick_nothing_id (p : Props) : id (pick [] p) = None.
Proof. reflexivity. Qed.

Lemma retouch_id (st : Client) (obj : FabricObject) :
  id (props (retouch st obj)) = id (props obj).
Proof. unfold retouch. by destruct (_ || _). Qed.

(** X6. The state a client sends in answer to a [request-sync] is
    serialised without the custom [id]: on the client that loads it every
    object is without id, whatever ids the sender's objects carry.  The
    eraser can take none of them and a later [object:removed] that names
    an id removes none of them. *)
Theorem synced_objects_have_no_id (sender joiner : Client)
        (requesterId : string) :
  isReadOnly sender = false →
  let state := toJSON [] (canvas sender) in
  let joined := on_load_state state joiner in
  last (emitted (on_request_sync requesterId sender))
  = Some (sync_state (roomId sender) state requesterId)
  ∧ length (canvas joined) = length (canvas sender)
  ∧ Forall (λ obj, id (props obj) = None ∧ erasable obj = false)
           (canvas joined)
  ∧ ∀ event, ev_type event = "object:removed" → ev_id event ≠ None →
             on_canvas_event event joined = joined.
Proof.
  intros Hro. cbv zeta.
  assert (Hcan : canvas (on_load_state (toJSON [] (canvas sender)) joiner)
                 = (λ s, retouch joiner (fromObject s))
                     <$> toJSON [] (canvas sender)).
  { unfold on_load_state.
    destruct (loadFromJSON_spec (toJSON [] (canvas sender))
                (set_isRestoring true joiner) eq_refl) as (_ & Hcan & _).
    simpl. exact Hcan. }
  assert (Hids : Forall (λ obj, id (props obj) = None)
                   (canvas (on_load_state (toJSON [] (canvas sender)) joiner))).
  { rewrite Hcan. unfold toJSON. rewrite <- list_fmap_compose.
    apply Forall_fmap, Forall_forall. intros obj _. simpl.
    by rewrite retouch_id. }
  split; [|split; [|split]].
  - rewrite on_request_sync_emitted, Hro. apply last_snoc.
  - rewrite Hcan. unfold toJSON. by rewrite !length_fmap.
  - eapply Forall_impl; [exact Hids|]. intros obj Hid. split; [done|].
    unfold erasable. by rewrite Hid.
  - intros event Ht Hsome. rewrite on_canvas_event_removed by done.
    apply canvas_remove_where_none. eapply Forall_impl; [exact Hids|].
    intros obj Hid. apply bool_decide_eq_false. congruence.
Qed.

Lemma synced_objects_have_no_id_witness :
  id ∘ props <$> canvas Scenario.two_shapes = [Some "a"; Some "b"]
  ∧ Forall (λ obj, id (props obj) = None ∧ erasable obj = false)
           (canvas (on_load_state (toJSON [] (canvas Scenario.two_shapes))
                                  Scenario.student)).
Proof.
  destruct (synced_objects_have_no_id Scenario.two_shapes Scenario.student
              "J" eq_refl) as (_ & _ & Hids & _).
  split; [reflexivity|exact Hids].
Defined.

(** ** The eraser, beyond one sample under the pointer *)

Section EraserFurther.

Variable containsPoint : FabricObject → Point → bool.

Lemma filter_filter_false {A} (P Q : A → bool) (l : list A) :
  (∀ x, Q x = false → P x = false) →
  filter (λ x, Q x = false) (filter (λ x, P x = false) l)
  = filter (λ x, Q x = false) l.
Proof.
  intros HPQ. induction l as [|x l IH]; [done|].
  destruct (P x) eqn:HP.
  - rewrite (filter_cons_False (λ x, P x = false)) by congruence.
    destruct (Q x) eqn:HQ.
    + rewrite (filter_cons_False (λ x, Q x = false)) by congruence. exact IH.
    + specialize (HPQ x HQ). congruence.
  - rewrite (filter_cons_True (λ x, P x = false)) by done.
    destruct (Q x) eqn:HQ.
    + rewrite !(filter_cons_False (λ x, Q x = false)) by congruence. exact IH.
    + rewrite !(filter_cons_True (λ x, Q x = false)) by done. by f_equal.
Qed.

Lemma handleScrubberMove_canvas (e : MouseEvent) (st : Client) :
  canvas (handleScrubberMove containsPoint e st) = canvas st
  ∨ canvas (handleScrubberMove containsPoint e st)
    = filter (λ obj, erased_at containsPoint (pointer e) obj = false)
             (canvas st).
Proof.
  unfold handleScrubberMove. case_bool_decide as Htool; [|by left].
  set (st1 := if bool_decide (buttons e = 1) && negb (isEraserDraggingRef st)
              then set_isEraserDragging true st else st).
  set (st2 := if bool_decide (buttons e = 0) && isEraserDraggingRef st1
              then set_isEraserDragging false st1 else st1).
  assert (Hc : canvas st2 = canvas st).
  { subst st2 st1. by repeat (destruct (_ && _); simpl). }
  destruct (isEraserDraggingRef st2); [|by left]. right.
  destruct (scrub_spec containsPoint (pointer e) (reverse (canvas st2)) [] st2)
    as (_ & Hcan & _).
  { by rewrite reverse_involutive, app_nil_r. }
  by rewrite Hcan, app_nil_r, filter_reverse, reverse_involutive, Hc.
Qed.

(** X7. Whatever the tool, the buttons and the drag state, a movement of
    the mouse never takes an object off the canvas that the eraser may
    not take (one without id, a ripple, an erasure mask) nor one that is
    not under the pointer: these stay, in their order. *)
Theorem scrubber_spares_the_ineligible (e : MouseEvent) (st : Client) :
  filter (λ obj, erased_at containsPoint (pointer e) obj = false)
         (canvas (handleScrubberMove containsPoint e st))
  = filter (λ obj, erased_at containsPoint (pointer e) obj = false) (canvas st)
  ∧ filter (λ obj, erasable obj = false)
           (canvas (handleScrubberMove containsPoint e st))
    = filter (λ obj, erasable obj = false) (canvas st).
Proof.
  destruct (handleScrubberMove_canvas e st) as [-> | ->]; [done|]. split.
  - by apply filter_filter_false.
  - apply filter_filter_false. intros obj Her. unfold erased_at.
    by rewrite Her.
Qed.



End EraserFurther.


(** ** The history under every operation *)

Lemma grows_refl (st : Client) : grows st st.
Proof. unfold grows. lia. Qed.

Lemma grows_trans (a b c : Client) : grows a b → grows b c → grows a c.
Proof. unfold grows. lia. Qed.

Lemma grows_same (st st' : Client) :
  historyRef st' = historyRef st → grows st st'.
Proof. unfold grows, undo_length. intros ->. lia. Qed.

Lemma grows_saveHistory (st : Client) : grows st (saveHistory st).
Proof. apply saveHistory_length. Qed.

Lemma grows_on_object_removed (target : FabricObject) (st : Client) :
  grows st (on_object_removed target st).
Proof.
  unfold on_object_removed.
  set (st1 := if negb (remote target) then saveHistory st else st).
  assert (H1 : grows st st1).
  { subst st1. destruct (remote target); simpl;
      [apply grows_refl|apply grows_saveHistory]. }
  eapply grows_trans; [exact H1|]. apply grows_same.
  destruct (bool_decide _); [destruct (_ && _)|]; reflexivity.
Qed.

Lemma grows_canvas_add (obj : FabricObject) (st : Client) :
  grows st (canvas_add obj st).
Proof.
  destruct (canvas_add_spec obj st) as (_ & _ & _ & Hh).
  unfold grows, undo_length. rewrite Hh. destruct (remote obj); [lia|].
  apply (saveHistory_length (set_canvas (canvas st ++ [obj]) st)).
Qed.

Lemma grows_canvas_remove_where (sel : FabricObject → bool)
      (todo kept : list FabricObject) (st : Client) :
  grows st (canvas_remove_where sel kept todo st).
Proof.
  revert kept st. induction todo as [|obj rest IH]; intros kept st; simpl.
  - apply grows_refl.
  - destruct (sel obj); [|apply IH].
    eapply grows_trans; [|apply IH].
    apply (grows_trans _ (set_canvas (kept ++ rest) st));
      [by apply grows_same|apply grows_on_object_removed].
Qed.

Lemma grows_foldl {A} (f : Client → A → Client) (l : list A) (st : Client) :
  (∀ acc x, grows acc (f acc x)) → grows st (foldl f st l).
Proof.
  intros Hf. revert st. induction l as [|x l IH]; intros st; simpl.
  - apply grows_refl.
  - eapply grows_trans; [apply Hf|apply IH].
Qed.

Lemma grows_loadFromJSON (state : Snapshot) (st : Client) :
  grows st (loadFromJSON state st).
Proof.
  unfold loadFromJSON. eapply grows_trans.
  - apply grows_canvas_remove_where.
  - apply grows_foldl. intros acc s. apply grows_canvas_add.
Qed.

Lemma grows_add_and_announce (incl : list string) (obj : FabricObject)
      (st : Client) :
  grows st (add_and_announce incl obj st).
Proof.
  unfold add_and_announce.
  eapply grows_trans; [apply grows_canvas_add|].
  eapply grows_trans; [|apply grows_saveHistory]. by apply grows_same.
Qed.

Lemma grows_add_members (ids : nat → string) (ms : list Props) (k : nat)
      (st : Client) :
  grows st (snd (add_members ids k ms st)).
Proof.
  revert k st. induction ms as [|m ms IH]; intros k st; simpl.
  - apply grows_refl.
  - specialize (IH (S k) (canvas_add (mkObject (set_id (Some (ids k)) m)
                                               [] false false) st)).
    destruct (add_members ids (S k) ms _) as [ps st2]. simpl in *.
    eapply grows_trans; [apply grows_canvas_add|exact IH].
Qed.

Lemma grows_place_clone (offset : Z) (ids : nat → string)
      (source : FabricObject) (st : Client) :
  grows st (place_clone offset ids source st).
Proof.
  unfold place_clone. case_bool_decide.
  - match goal with
    | |- context [add_members ?i ?k ?ms ?s] =>
        pose proof (grows_add_members i ms k s) as Hm;
        destruct (add_members i k ms s) as [ps st1]
    end.
    simpl in *. eapply grows_trans; [exact Hm|].
    eapply grows_trans; [|apply grows_saveHistory]. by apply grows_same.
  - eapply grows_trans; [apply grows_canvas_add|].
    eapply grows_trans; [|apply grows_saveHistory]. by apply grows_same.
Qed.

Lemma grows_remove_each (positions : list nat)
      (tagged : list (nat * FabricObject)) (st : Client) :
  grows st (remove_each positions tagged st).
Proof.
  revert tagged st. induction positions as [|i positions IH];
    intros tagged st; simpl.
  - apply grows_refl.
  - destruct (list_find _ tagged) as [[k [j obj]]|]; [|apply IH].
    eapply grows_trans; [|apply IH].
    eapply grows_trans; [|apply grows_on_object_removed].
    apply grows_same. by destruct (truthy _).
Qed.

Section Growth.

Variable containsPoint : FabricObject → Point → bool.

Lemma grows_scrub (p : Point) (below above : list FabricObject)
      (st : Client) :
  grows st (scrub containsPoint p below above st).
Proof.
  revert above st. induction below as [|obj below IH]; intros above st; simpl.
  - apply grows_refl.
  - destruct (_ && _); [|apply IH].
    eapply grows_trans; [|apply IH].
    eapply grows_trans; [|apply grows_on_object_removed]. by apply grows_same.
Qed.

Lemma grows_step (a : Action) (st : Client) :
  a ≠ act_undo → a ≠ act_resetWhiteboard →
  grows st (step containsPoint a st).
Proof.
  intros Hundo Hreset. destruct a; simpl; try done.
  - by apply grows_same.
  - unfold on_request_sync. destruct (negb _); by apply grows_same.
  - unfold on_load_state.
    apply (grows_trans _ (loadFromJSON state (set_isRestoring true st)));
      [|by apply grows_same].
    apply (grows_trans _ (set_isRestoring true st));
      [by apply grows_same|apply grows_loadFromJSON].
  - unfold on_canvas_event.
    repeat case_bool_decide; try apply grows_refl.
    + destruct (data event); [apply grows_canvas_add|apply grows_refl].
    + apply grows_canvas_remove_where.
    + apply grows_canvas_remove_where.
  - by apply grows_same.
  - unfold handleScrubberMove. case_bool_decide; [|apply grows_refl].
    set (st1 := if bool_decide (buttons e = 1) && negb (isEraserDraggingRef st)
                then set_isEraserDragging true st else st).
    set (st2 := if bool_decide (buttons e = 0) && isEraserDraggingRef st1
                then set_isEraserDragging false st1 else st1).
    assert (H2 : grows st st2).
    { apply grows_same. subst st2 st1.
      by repeat (destruct (_ && _); simpl). }
    destruct (isEraserDraggingRef st2); [|exact H2].
    eapply grows_trans; [exact H2|apply grows_scrub].
  - unfold on_mouse_down. case_bool_decide; [|apply grows_refl].
    destruct (match opt_target with Some i => Some i | None => _ end) as [i|];
      [|by apply grows_same].
    destruct (canvas _ !! i) as [obj|]; [|by apply grows_same].
    destruct (erasable obj); [|by apply grows_same].
    eapply grows_trans; [|apply grows_saveHistory].
    eapply grows_trans; [|apply grows_on_object_removed]. by apply grows_same.
  - by apply grows_same.
  - unfold free_draw. eapply grows_trans; [apply grows_canvas_add|].
    unfold on_path_created. destruct (last _); [|apply grows_refl].
    destruct (_ && _).
    + eapply grows_trans; [|apply grows_on_object_removed]. by apply grows_same.
    + by apply grows_same.
  - apply grows_canvas_add.
  - unfold ripple_complete. destruct position as [i|]; [|apply grows_refl].
    destruct (canvas st !! i); [|apply grows_refl].
    eapply grows_trans; [|apply grows_on_object_removed]. by apply grows_same.
  - apply grows_canvas_add.
  - unfold addShape. destruct (isReadOnly st); [apply grows_refl|].
    destruct (shape_type _); [apply grows_add_and_announce|apply grows_refl].
  - unfold addText. destruct (isReadOnly st);
      [apply grows_refl|apply grows_add_and_announce].
  - unfold uploadImage. destruct (isReadOnly st); [apply grows_refl|].
    destruct decoded; [apply grows_add_and_announce|apply grows_refl].
  - unfold deleteSelected. destruct (isReadOnly st); [apply grows_refl|].
    case_bool_decide; [apply grows_refl|].
    destruct (isEditing sel); [apply grows_refl|].
    eapply grows_trans; [apply grows_remove_each|apply grows_saveHistory].
  - unfold copy. destruct (getActiveObject sel st);
      [by apply grows_same|apply grows_refl].
  - unfold paste. destruct (clipboardRef st);
      [apply grows_place_clone|apply grows_refl].
  - unfold cut. destruct (isReadOnly st); [apply grows_refl|].
    destruct (getActiveObject sel st); [|apply grows_refl].
    eapply grows_trans; [|apply grows_saveHistory].
    eapply grows_trans; [|apply grows_remove_each]. by apply grows_same.
  - unfold duplicate. destruct (isReadOnly st); [apply grows_refl|].
    destruct (getActiveObject sel st);
      [apply grows_place_clone|apply grows_refl].
  - unfold clearCanvas. destruct (isReadOnly st); [apply grows_refl|].
    eapply grows_trans; [|apply grows_saveHistory].
    eapply grows_trans; [apply grows_canvas_remove_where|]. by apply grows_same.
  - unfold redo. destruct (last (History.redo (historyRef st))) as [next|];
      [|apply grows_refl].
    eapply grows_trans; [|apply grows_loadFromJSON].
    unfold grows, undo_length. simpl. rewrite length_app. lia.
  - by apply grows_same.
Qed.

End Growth.

Lemma undo_length_undo (st : Client) :
  (undo_length st - 1 ≤ undo_length (undo st))%nat
  ∧ (undo_length st ≠ 0 → undo_length (undo st) ≠ 0)%nat.
Proof.
  unfold undo_length. split.
  - destruct (decide (1 < length (History.undo (historyRef st)))%nat) as [Hl|Hl].
    + destruct (History.undo (historyRef st)) as [|cur l _] eqn:Hu using rev_ind;
        [simpl in Hl; lia|].
      destruct l as [|prev l _] using rev_ind; [simpl in Hl; lia|].
      rewrite <- app_assoc in Hu. simpl in Hu.
      rewrite (undo_step st l prev cur Hu).
      destruct (loadFromJSON_spec prev
                  (set_history
                     (History.mk (l ++ [prev])
                                 (History.redo (historyRef st) ++ [cur]))
                     (set_isRestoring true st)) eq_refl) as (_ & _ & _ & ->).
      simpl. rewrite !length_app. simpl. lia.
    + rewrite undo_short by lia. lia.
  - intros Hne. pose proof (undo_keeps_sentinel st) as Hk.
    destruct (History.undo (historyRef st)) eqn:Hu; [done|].
    destruct (History.undo (historyRef (undo st))); [|done].
    by exfalso; apply Hk.
Qed.

Lemma undo_length_reset (st : Client) :
  undo_length (resetWhiteboard st) = 1%nat
  ∨ resetWhiteboard st = st.
Proof.
  unfold resetWhiteboard. destruct (isReadOnly st); [by right|]. by left.
Qed.

Section HistoryInvariants.

Variable containsPoint : FabricObject → Point → bool.

(** X9. Of the actions of [Action] (the socket messages, a change of
    tool, the eraser's mouse events, a stroke of the brush, the ripple,
    the test line and the callbacks that create, delete, copy, paste,
    cut, duplicate, clear, reset, undo and redo) only [undo()] and
    [resetWhiteboard()] ever shorten [undo]: every other action leaves
    at least as many snapshots on it as before; [undo()] takes one off
    at most and [resetWhiteboard()] leaves one. *)
Theorem only_undo_and_reset_shorten_history (a : Action) (st : Client) :
  (a ≠ act_undo → a ≠ act_resetWhiteboard →
   (undo_length st ≤ undo_length (step containsPoint a st))%nat)
  ∧ (undo_length st - 1 ≤ undo_length (step containsPoint act_undo st))%nat
  ∧ (isReadOnly st = false →
     undo_length (step containsPoint act_resetWhiteboard st) = 1%nat).
Proof.
  split; [|split].
  - apply grows_step.
  - apply undo_length_undo.
  - intros Hro. simpl. unfold resetWhiteboard. by rewrite Hro.
Qed.

Lemma step_keeps_sentinel (a : Action) (st : Client) :
  undo_length st ≠ 0%nat → undo_length (step containsPoint a st) ≠ 0%nat.
Proof.
  intros Hne.
  destruct a;
    try (match goal with
         | |- undo_length (step _ ?a _) ≠ _ =>
             pose proof (grows_step containsPoint a st
                           ltac:(discriminate) ltac:(discriminate)) as Hg
         end; unfold grows in Hg; lia).
  - simpl. destruct (undo_length_reset st) as [-> | ->]; [lia|done].
  - simpl. by apply undo_length_undo.
Qed.

Lemma run_snoc (actions : list Action) (a : Action) (st : Client) :
  run containsPoint (actions ++ [a]) st
  = step containsPoint a (run containsPoint actions st).
Proof. unfold run. by rewrite foldl_app. Qed.

(** X10. The sentinel of the history survives: from a fresh board, and
    from any board whose [undo] is not empty, no sequence of the actions
    of [Action], in any order and number, leaves [undo] empty. *)
Theorem undo_never_empty (actions : list Action) (st : Client) :
  (∀ readOnly room tool,
      History.undo
        (historyRef (run containsPoint actions (mount readOnly room tool)))
      ≠ [])
  ∧ (History.undo (historyRef st) ≠ [] →
     History.undo (historyRef (run containsPoint actions st)) ≠ []).
Proof.
  assert (Hgen : ∀ st0, undo_length st0 ≠ 0%nat →
                        undo_length (run containsPoint actions st0) ≠ 0%nat).
  { intros st0 Hne. induction actions as [|a actions IH] using rev_ind; [done|].
    rewrite run_snoc. by apply step_keeps_sentinel. }
  split.
  - intros readOnly room tool.
    specialize (Hgen (mount readOnly room tool)). unfold undo_length in Hgen.
    intros Hempty. rewrite Hempty in Hgen. by apply Hgen.
  - intros Hne. specialize (Hgen st). unfold undo_length in Hgen.
    intros Hempty. rewrite Hempty in Hgen. apply Hgen; [|done].
    by destruct (History.undo (historyRef st)).
Qed.

End HistoryInvariants.

Lemma only_undo_and_reset_shorten_history_witness :
  (undo_length Scenario.two_shapes
   ≤ undo_length (on_canvas_event (mkEvent "room-1" "clear" None None)
                                  Scenario.two_shapes))%nat
  ∧ undo_length (resetWhiteboard Scenario.two_shapes) = 1%nat.
Proof.
  destruct (only_undo_and_reset_shorten_history Scenario.within
              (act_canvas_event (mkEvent "room-1" "clear" None None))
              Scenario.two_shapes) as (Hgrow & _).
  destruct (only_undo_and_reset_shorten_history Scenario.within
              act_resetWhiteboard Scenario.two_shapes) as (_ & _ & Hreset).
  split; [apply Hgrow; discriminate|apply Hreset; reflexivity].
Defined.

Lemma undo_never_empty_witness :
  History.undo
    (historyRef
       (run Scenario.within
            [act_undo; act_undo; act_clearCanvas; act_undo; act_redo;
             act_resetWhiteboard; act_undo]
            Scenario.two_shapes)) ≠ [].
Proof.
  destruct (undo_never_empty Scenario.within
              [act_undo; act_undo; act_clearCanvas; act_undo; act_redo;
               act_resetWhiteboard; act_undo]
              Scenario.two_shapes) as (_ & Hkeep).
  apply Hkeep. vm_compute. discriminate.
Defined.

(** ** Undo and redo as inverses *)

Lemma retouch_same (st st' : Client) (obj : FabricObject) :
  isReadOnly st' = isReadOnly st → activeToolRef st' = activeToolRef st →
  retouch st' obj = retouch st obj.
Proof. intros Hro Htool. unfold retouch. by rewrite Hro, Htool. Qed.

(** X11. [undo()] followed by [redo()] puts both stacks back as they
    were and leaves on the canvas the objects of the snapshot that was on
    top; [redo()] followed by [undo()] does the same. *)
Theorem undo_redo_inverse (st : Client) (hs rs : list Snapshot)
        (prev cur next : Snapshot) :
  (History.undo (historyRef st) = hs ++ [prev; cur] →
   historyRef (redo (undo st)) = historyRef st
   ∧ canvas (redo (undo st)) = (λ s, retouch st (fromObject s)) <$> cur)
  ∧ (History.undo (historyRef st) = hs ++ [cur] →
     History.redo (historyRef st) = rs ++ [next] →
     historyRef (undo (redo st)) = historyRef st
     ∧ canvas (undo (redo st)) = (λ s, retouch st (fromObject s)) <$> cur).
Proof.
  split.
  - intros Hu. rewrite (undo_step st hs prev cur Hu).
    set (st1 := set_history
                  (History.mk (hs ++ [prev])
                              (History.redo (historyRef st) ++ [cur]))
                  (set_isRestoring true st)).
    destruct (loadFromJSON_spec prev st1 eq_refl) as (Hrefs & _ & _ & Hh).
    rewrite (redo_step (loadFromJSON prev st1) (History.redo (historyRef st)) cur)
      by (by rewrite Hh).
    rewrite Hh. simpl.
    set (st2 := set_history _ _).
    destruct (loadFromJSON_spec cur st2 eq_refl) as (_ & -> & _ & ->).
    simpl. split.
    + rewrite <- app_assoc. simpl. rewrite <- Hu. by destruct (historyRef st).
    + apply list_fmap_ext. intros _ s _. apply retouch_same.
      * destruct Hrefs as (Hro & _). exact Hro.
      * destruct Hrefs as (_ & _ & Htool & _). exact Htool.
  - intros Hu Hr. rewrite (redo_step st rs next Hr).
    set (st1 := set_history
                  (History.mk (History.undo (historyRef st) ++ [next]) rs)
                  (set_isRestoring true st)).
    destruct (loadFromJSON_spec next st1 eq_refl) as (Hrefs & _ & _ & Hh).
    rewrite (undo_step (loadFromJSON next st1) hs cur next)
      by (rewrite Hh; simpl; rewrite Hu, <- app_assoc; done).
    rewrite Hh. simpl.
    set (st2 := set_history _ _).
    destruct (loadFromJSON_spec cur st2 eq_refl) as (_ & -> & _ & ->).
    simpl. split.
    + rewrite <- Hu, <- Hr. by destruct (historyRef st).
    + apply list_fmap_ext. intros _ s _. apply retouch_same.
      * destruct Hrefs as (Hro & _). exact Hro.
      * destruct Hrefs as (_ & _ & Htool & _). exact Htool.
Qed.

Lemma undo_redo_inverse_witness :
  historyRef (redo (undo Scenario.two_shapes)) = historyRef Scenario.two_shapes
  ∧ historyRef (undo (redo Scenario.undone)) = historyRef Scenario.undone.
Proof.
  destruct (undo_redo_inverse Scenario.two_shapes [initialJson] []
              (toJSON history_props (canvas Scenario.one_shape))
              (toJSON history_props (canvas Scenario.two_shapes)) [])
    as (Hfirst & _).
  destruct (undo_redo_inverse Scenario.undone [] [] [] initialJson
              (toJSON history_props (canvas Scenario.one_shape)))
    as (_ & Hsecond).
  split; [apply Hfirst; reflexivity|apply Hsecond; reflexivity].
Defined.

Lemma snapshots_undo (st : Client) :
  (length (History.undo (historyRef (undo st)))
   + length (History.redo (historyRef (undo st))))%nat
  = (length (History.undo (historyRef st))
     + length (History.redo (historyRef st)))%nat.
Proof.
  destruct (decide (1 < length (History.undo (historyRef st)))%nat) as [Hl|Hl].
  - destruct (History.undo (historyRef st)) as [|cur l _] eqn:Hu using rev_ind;
      [simpl in Hl; lia|].
    destruct l as [|prev l _] using rev_ind; [simpl in Hl; lia|].
    rewrite <- app_assoc in Hu. simpl in Hu.
    rewrite (undo_step st l prev cur Hu).
    destruct (loadFromJSON_spec prev
                (set_history
                   (History.mk (l ++ [prev])
                               (History.redo (historyRef st) ++ [cur]))
                   (set_isRestoring true st)) eq_refl) as (_ & _ & _ & ->).
    simpl. rewrite !length_app. simpl. lia.
  - by rewrite undo_short by lia.
Qed.

Lemma snapshots_redo (st : Client) :
  (length (History.undo (historyRef (redo st)))
   + length (History.redo (historyRef (redo st))))%nat
  = (length (History.undo (historyRef st))
     + length (History.redo (historyRef st)))%nat.
Proof.
  destruct (History.redo (historyRef st)) as [|next rs _] eqn:Hr using rev_ind.
  - rewrite redo_empty by done. by rewrite Hr.
  - rewrite (redo_step st rs next Hr).
    destruct (loadFromJSON_spec next
                (set_history
                   (History.mk (History.undo (historyRef st) ++ [next]) rs)
                   (set_isRestoring true st)) eq_refl) as (_ & _ & _ & ->).
    simpl. rewrite !length_app. simpl. lia.
Qed.

(** X12. [undo()] and [redo()] only move snapshots between the two
    stacks: over any sequence of them, with the restore timer firing
    anywhere, the number of snapshots on [undo] and [redo] together stays
    the same. *)
Theorem undo_redo_keep_every_snapshot (calls : list HistoryCall)
        (st : Client) :
  (length (History.undo (historyRef (run_history calls st)))
   + length (History.redo (historyRef (run_history calls st))))%nat
  = (length (History.undo (historyRef st))
     + length (History.redo (historyRef st)))%nat.
Proof.
  induction calls as [|call calls IH] using rev_ind; [done|].
  rewrite run_history_snoc. destruct call.
  - by rewrite snapshots_undo.
  - by rewrite snapshots_redo.
  - exact IH.
Qed.

(** ** Callbacks that create an object *)

(** What [c.add(obj)], the announcement and [saveHistory()] do for a new
    local object. *)
Lemma add_and_announce_spec (incl : list string) (obj : FabricObject)
      (st : Client) :
  remote obj = false →
  let st' := add_and_announce incl obj st in
  canvas st' = canvas st ++ [retouch st obj]
  ∧ emitted st' = emitted st ++ [added_event st incl (retouch st obj)]
  ∧ clipboardRef st' = clipboardRef st
  ∧ isRestoringRef st' = isRestoringRef st
  ∧ (isRestoringRef st = true → historyRef st' = historyRef st)
  ∧ (isRestoringRef st = false →
     last (History.undo (historyRef st'))
     = Some (toJSON history_props (canvas st')))
  ∧ (isRestoringRef st = false →
     last (History.undo (historyRef st))
     ≠ Some (toJSON history_props (canvas st ++ [obj])) →
     History.redo (historyRef st') = []
     ∧ (undo_length st < undo_length st')%nat
     ∧ (retouch st obj = obj →
        History.undo (historyRef st')
        = History.undo (historyRef st)
            ++ [toJSON history_props (canvas st ++ [obj])])).
Proof.
  intros Hloc. cbv zeta. unfold add_and_announce.
  destruct (canvas_add_spec obj st) as (Hrefs & Hc & Hem & Hh).
  rewrite Hloc in Hh.
  set (st1 := canvas_add obj st) in *.
  rewrite Hc, last_snoc. simpl.
  set (st3 := emit (added_event st1 incl (retouch st obj)) st1).
  destruct (saveHistory_frame st3) as (Hc3 & He3 & Hr3 & Hclip3 & _).
  destruct Hrefs as (_ & Hroom & _ & Hrest & Hclip & _).
  rewrite Hc3, He3, Hr3, Hclip3. simpl. rewrite Hc, Hem, Hclip, Hrest.
  split; [done|]. split; [by unfold added_event; rewrite Hroom|].
  split; [done|]. split; [done|].
  set (st0 := set_canvas (canvas st ++ [obj]) st) in Hh.
  split; [|split].
  - intros Hr. rewrite saveHistory_restoring by (simpl; congruence).
    simpl. rewrite Hh. by rewrite saveHistory_restoring.
  - intros Hr.
    assert (Hr3' : isRestoringRef st3 = false) by (simpl; congruence).
    pose proof (saveHistory_top st3 Hr3') as Htop. simpl in Htop.
    by rewrite Hc in Htop.
  - intros Hr Hnew.
    assert (Hr3' : isRestoringRef st3 = false) by (simpl; congruence).
    assert (Hpush : historyRef st1
                    = History.mk (History.undo (historyRef st)
                                    ++ [toJSON history_props (canvas st ++ [obj])])
                                 []).
    { rewrite Hh, (saveHistory_push st0); done. }
    split; [|split].
    + unfold saveHistory. rewrite Hr3'. case_bool_decide; [|done].
      simpl. by rewrite Hpush.
    + destruct (saveHistory_length st3) as (Hle & _). simpl in Hle.
      unfold undo_length. rewrite Hpush in Hle. simpl in Hle.
      rewrite length_app in Hle. simpl in Hle. lia.
    + intros Hneutral. rewrite saveHistory_same_top.
      * simpl. by rewrite Hpush.
      * simpl. rewrite Hpush, Hc, Hneutral. simpl. apply last_snoc.
Qed.

(** X13. On a client that is not read-only each creation callback puts
    exactly one new local object on top of the canvas and announces it
    with one [object:added] that carries its id: [addShape] for the three
    known shapes (any other type changes nothing), [addText], and
    [uploadImage] for a decoded file (a rejected file changes nothing).
    The clipboard is not touched. *)
Theorem creation_callbacks (st : Client) (type objId : string)
        (center : Z * Z) (style : string) (img : FabricObject) :
  isReadOnly st = false →
  (shape_type type = None → addShape type objId center style st = st)
  ∧ (∀ ty, shape_type type = Some ty →
       let shape := mkObject (mkProps (Some objId) ty (fst center) (snd center)
                                      "source-over" true style) [] false false in
       canvas (addShape type objId center style st)
       = canvas st ++ [retouch st shape]
       ∧ emitted (addShape type objId center style st)
         = emitted st
             ++ [canvas_event
                   (mkEvent (roomId st) "object:added" (Some objId)
                            (Some (toObject shape_props (retouch st shape))))]
       ∧ clipboardRef (addShape type objId center style st) = clipboardRef st)
  ∧ (let text := mkObject (mkProps (Some objId) "i-text" (fst center)
                                   (snd center) "source-over" true style)
                          [] false false in
     canvas (addText objId center style st) = canvas st ++ [retouch st text]
     ∧ emitted (addText objId center style st)
       = emitted st
           ++ [canvas_event
                 (mkEvent (roomId st) "object:added" (Some objId)
                          (Some (toObject ["id"] (retouch st text))))])
  ∧ uploadImage None st = st
  ∧ (remote img = false →
     canvas (uploadImage (Some img) st) = canvas st ++ [retouch st img]
     ∧ emitted (uploadImage (Some img) st)
       = emitted st
           ++ [canvas_event
                 (mkEvent (roomId st) "object:added" (id (props img))
                          (Some (toObject history_props (retouch st img))))]).
Proof.
  intros Hro. unfold addShape, addText, uploadImage. rewrite Hro.
  split; [by intros ->|]. split; [|split; [|split; [done|]]].
  - intros ty ->. cbv zeta.
    match goal with
    | |- context [add_and_announce ?i ?o st] =>
        destruct (add_and_announce_spec i o st eq_refl) as (Hc & He & Hclip & _)
    end.
    rewrite Hc, He, Hclip. unfold added_event. by rewrite retouch_id.
  - cbv zeta.
    match goal with
    | |- context [add_and_announce ?i ?o st] =>
        destruct (add_and_announce_spec i o st eq_refl) as (Hc & He & _)
    end.
    rewrite Hc, He. unfold added_event. by rewrite retouch_id.
  - intros Hloc.
    destruct (add_and_announce_spec history_props img st Hloc) as (Hc & He & _).
    rewrite Hc, He. unfold added_event. by rewrite retouch_id.
Qed.

Lemma creation_callbacks_witness :
  length (canvas (addShape "circle" "k" (10, 10) "" Scenario.one_shape)) = 2%nat
  ∧ addShape "star" "k" (10, 10) "" Scenario.one_shape = Scenario.one_shape.
Proof.
  destruct (creation_callbacks Scenario.one_shape "circle" "k" (10, 10) ""
              (Scenario.local_obj "i" 0 0) eq_refl) as (_ & Hshape & _).
  destruct (creation_callbacks Scenario.one_shape "star" "k" (10, 10) ""
              (Scenario.local_obj "i" 0 0) eq_refl) as (Hnone & _).
  destruct (Hshape "circle" eq_refl) as (Hc & _).
  split; [rewrite Hc; reflexivity|apply Hnone; reflexivity].
Defined.




(** X15. Whatever was on the canvas, after an [undo()] or a [redo()]
    that found something to restore every object is local: the reload
    drops the [remote] marker of replicated objects. *)
Theorem restore_forgets_remote (st : Client) :
  ((1 < length (History.undo (historyRef st)))%nat →
   Forall (λ obj, remote obj = false) (canvas (undo st)))
  ∧ (History.redo (historyRef st) ≠ [] →
     Forall (λ obj, remote obj = false) (canvas (redo st))).
Proof.
  assert (Hrev : ∀ stx (state : Snapshot),
             Forall (λ obj, remote obj = false)
                    ((λ s, retouch stx (fromObject s)) <$> state)).
  { intros stx state. apply Forall_fmap, Forall_forall. intros s _. simpl.
    by destruct (remote_retouch stx (fromObject s)) as (-> & _). }
  split.
  - intros Hl.
    destruct (History.undo (historyRef st)) as [|cur l _] eqn:Hu using rev_ind;
      [simpl in Hl; lia|].
    destruct l as [|prev l _] using rev_ind; [simpl in Hl; lia|].
    rewrite <- app_assoc in Hu. simpl in Hu.
    rewrite (undo_step st l prev cur Hu).
    match goal with
    | |- context [loadFromJSON ?s ?x] =>
        destruct (loadFromJSON_spec s x eq_refl) as (_ & -> & _)
    end.
    apply Hrev.
  - intros Hne.
    destruct (History.redo (historyRef st)) as [|next rs _] eqn:Hr using rev_ind;
      [done|].
    rewrite (redo_step st rs next Hr).
    match goal with
    | |- context [loadFromJSON ?s ?x] =>
        destruct (loadFromJSON_spec s x eq_refl) as (_ & -> & _)
    end.
    apply Hrev.
Qed.

Lemma restore_forgets_remote_witness :
  remote <$> canvas Scenario.mixed_board = [true; false]
  ∧ length (canvas (redo Scenario.mixed_undone)) = 2%nat
  ∧ Forall (λ obj, remote obj = false) (canvas (redo Scenario.mixed_undone)).
Proof.
  destruct (restore_forgets_remote Scenario.mixed_undone) as (_ & Hredo).
  split; [reflexivity|]. split; [reflexivity|].
  apply Hredo. vm_compute. discriminate.
Defined.

(** ** Clearing and resetting the board *)





(** X17. [resetWhiteboard] on a client that is not read-only leaves an
    empty canvas, a history that holds the empty snapshot alone, an empty
    clipboard and [clear] as the last message; after it neither [undo()]
    nor [redo()] has anything to act on. *)
Theorem resetWhiteboard_forgets_everything (st : Client) :
  isReadOnly st = false →
  canvas (resetWhiteboard st) = []
  ∧ historyRef (resetWhiteboard st) = History.mk [initialJson] []
  ∧ clipboardRef (resetWhiteboard st) = None
  ∧ last (emitted (resetWhiteboard st))
    = Some (canvas_event (mkEvent (roomId st) "clear" None None))
  ∧ undo (resetWhiteboard st) = resetWhiteboard st
  ∧ redo (resetWhiteboard st) = resetWhiteboard st.
Proof.
  intros Hro.
  assert (Hh : historyRef (resetWhiteboard st) = History.mk [initialJson] []).
  { unfold resetWhiteboard. rewrite Hro. simpl.
    destruct (canvas_clear_spec st) as (_ & -> & _). reflexivity. }
  split; [|split; [exact Hh|split; [|split; [|split]]]].
  - unfold resetWhiteboard. rewrite Hro. simpl.
    by destruct (canvas_clear_spec st) as (_ & -> & _).
  - unfold resetWhiteboard. by rewrite Hro.
  - unfold resetWhiteboard. rewrite Hro. simpl. rewrite last_snoc.
    unfold clear_event. simpl.
    by destruct (canvas_clear_spec st) as ((_ & -> & _) & _).
  - apply undo_short. by rewrite Hh.
  - apply redo_empty. by rewrite Hh.
Qed.

Lemma resetWhiteboard_forgets_everything_witness :
  undo (resetWhiteboard Scenario.copied) = resetWhiteboard Scenario.copied
  ∧ clipboardRef (resetWhiteboard Scenario.copied) = None.
Proof.
  destruct (resetWhiteboard_forgets_everything Scenario.copied eq_refl)
    as (_ & _ & Hclip & _ & Hundo & _).
  split; [exact Hundo|exact Hclip].
Defined.

(** ** Deleting and cutting the selection *)

Lemma tagged_lookup_cons (i : nat) (x : nat * FabricObject)
      (tagged : list (nat * FabricObject)) :
  tagged_lookup i (x :: tagged)
  = if decide (fst x = i) then Some (snd x) else tagged_lookup i tagged.
Proof.
  unfold tagged_lookup. simpl. destruct (decide (fst x = i)); [done|].
  by destruct (list_find _ tagged) as [[k [j o]]|].
Qed.

Lemma tagged_lookup_filter (i j : nat) (tagged : list (nat * FabricObject)) :
  i ≠ j →
  tagged_lookup i (filter (λ x, fst x ≠ j) tagged) = tagged_lookup i tagged.
Proof.
  intros Hij. induction tagged as [|x tagged IH]; [done|].
  rewrite filter_cons. destruct (decide (fst x ≠ j)) as [Hx|Hx].
  - rewrite !tagged_lookup_cons. by destruct (decide (fst x = i)).
  - rewrite tagged_lookup_cons. destruct (decide (fst x = i)); [|exact IH].
    exfalso. apply Hx. congruence.
Qed.

Lemma tagged_lookup_imap (n i : nat) (objs : list FabricObject) :
  tagged_lookup (n + i) (imap (λ k obj, ((n + k)%nat, obj)) objs) = objs !! i.
Proof.
  revert n i. induction objs as [|obj objs IH]; intros n i; [done|].
  rewrite imap_cons, tagged_lookup_cons. simpl.
  destruct i as [|i].
  - rewrite decide_True by lia. done.
  - rewrite decide_False by lia. simpl.
    rewrite <- (IH (S n) i).
    replace (n + S i)%nat with (S n + i)%nat by lia. f_equal.
    apply imap_ext. intros k o _. simpl. f_equal. lia.
Qed.

Lemma tagged_lookup_None (i : nat) (tagged : list (nat * FabricObject)) :
  tagged_lookup i tagged = None →
  filter (λ x, fst x ≠ i) tagged = tagged.
Proof.
  intros Hnone. induction tagged as [|x tagged IH]; [done|].
  rewrite tagged_lookup_cons in Hnone.
  destruct (decide (fst x = i)); [done|].
  rewrite filter_cons_True by done. f_equal. by apply IH.
Qed.

Lemma remove_each_found (i : nat) (positions : list nat)
      (tagged : list (nat * FabricObject)) (obj : FabricObject) (st : Client) :
  tagged_lookup i tagged = Some obj →
  remove_each (i :: positions) tagged st
  = remove_each positions (filter (λ x, fst x ≠ i) tagged)
      (on_object_removed obj
         (set_canvas (snd <$> filter (λ x, fst x ≠ i) tagged)
            (if truthy (id (props obj)) then emit (removed_event st obj) st
             else st))).
Proof.
  unfold tagged_lookup. simpl.
  destruct (list_find _ tagged) as [[k [j o]]|]; [|done].
  simpl. by intros [= ->].
Qed.

Lemma remove_each_missing (i : nat) (positions : list nat)
      (tagged : list (nat * FabricObject)) (st : Client) :
  tagged_lookup i tagged = None →
  remove_each (i :: positions) tagged st = remove_each positions tagged st.
Proof.
  unfold tagged_lookup. simpl.
  by destruct (list_find _ tagged) as [[k [j o]]|].
Qed.

Lemma delete_events_refs (st st' : Client) (obj : FabricObject) :
  roomId st' = roomId st → activeToolRef st' = activeToolRef st →
  delete_events st' obj = delete_events st obj.
Proof.
  intros Hroom Htool.
  unfold delete_events, listener_broadcast, removed_event.
  by rewrite Hroom, Htool.
Qed.

Lemma filter_everything {A} (P : A → Prop) `{∀ x, Decision (P x)}
      (l : list A) :
  (∀ x, P x) → filter P l = l.
Proof.
  intros HP. induction l as [|x l IH]; [done|].
  rewrite filter_cons_True by done. by f_equal.
Qed.

Lemma remove_each_spec (positions : list nat)
      (tagged : list (nat * FabricObject)) (st : Client) :
  NoDup positions → canvas st = snd <$> tagged →
  let st' := remove_each positions tagged st in
  same_refs st st'
  ∧ canvas st' = snd <$> filter (λ x, fst x ∉ positions) tagged
  ∧ emitted st'
    = emitted st
        ++ flat_map (delete_events st)
                    (omap (λ i, tagged_lookup i tagged) positions).
Proof.
  intros Hnd. revert tagged st.
  induction Hnd as [|i positions Hi Hnd IH]; intros tagged st Hc; cbv zeta.
  - simpl. rewrite app_nil_r. split; [apply same_refs_refl|]. split; [|done].
    rewrite Hc. f_equal. symmetry. apply filter_everything.
    intros x. apply not_elem_of_nil.
  - destruct (tagged_lookup i tagged) as [obj|] eqn:Hlook.
    + rewrite (remove_each_found i positions tagged obj st Hlook).
      set (tagged' := filter (λ x, fst x ≠ i) tagged).
      set (st1 := if truthy (id (props obj))
                  then emit (removed_event st obj) st else st).
      set (st0 := set_canvas (snd <$> tagged') st1).
      destruct (on_object_removed_spec obj st0) as (Hrefs & Hcan & Hem & _).
      assert (Hrefs0 : same_refs st (on_object_removed obj st0)).
      { eapply same_refs_trans; [|exact Hrefs]. subst st0 st1.
        destruct (truthy _); repeat split. }
      destruct (IH tagged' (on_object_removed obj st0)) as (Hrefs' & Hcan' & Hem').
      { by rewrite Hcan. }
      split; [eapply same_refs_trans; eassumption|]. split.
      * rewrite Hcan'. f_equal. subst tagged'. rewrite list_filter_filter.
        apply list_filter_iff. intros x. rewrite elem_of_cons. tauto.
      * assert (Homap : omap (λ j, tagged_lookup j tagged) (i :: positions)
                        = obj :: omap (λ j, tagged_lookup j tagged) positions)
          by (simpl; by rewrite Hlook).
        rewrite Hem', Hem, Homap. cbn [flat_map].
        assert (He0 : emitted st0 ++ listener_broadcast st0 obj
                      = emitted st ++ delete_events st obj).
        { unfold delete_events. subst st0 st1.
          rewrite (listener_broadcast_refs st) by
            (destruct (truthy _); repeat split).
          destruct (truthy _); simpl; by rewrite <- ?app_assoc. }
        rewrite He0, <- app_assoc.
        assert (Hlk : omap (λ j, tagged_lookup j tagged') positions
                      = omap (λ j, tagged_lookup j tagged) positions).
        { clear -Hi. induction positions as [|j positions IHp]; [done|].
          assert (Hj : tagged_lookup j tagged' = tagged_lookup j tagged).
          { subst tagged'. apply tagged_lookup_filter.
            intros ->. apply Hi. by left. }
          specialize (IHp ltac:(intros Hin; apply Hi; by right)).
          change (omap ?f (j :: positions))
            with (match f j with
                  | Some y => y :: omap f positions
                  | None => omap f positions
                  end).
          cbv beta. by rewrite Hj, IHp. }
        rewrite Hlk. do 2 f_equal. apply flat_map_ext. intros o.
        destruct Hrefs0 as (_ & Hroom & Htool & _).
        by apply delete_events_refs.
    + rewrite (remove_each_missing i positions tagged st Hlook).
      destruct (IH tagged st Hc) as (Hrefs' & Hcan' & Hem').
      split; [exact Hrefs'|]. split.
      * rewrite Hcan'. f_equal.
        rewrite <- (tagged_lookup_None i tagged Hlook) at 1.
        rewrite list_filter_filter.
        apply list_filter_iff. intros x. rewrite elem_of_cons. tauto.
      * rewrite Hem'. do 2 f_equal. simpl. by rewrite Hlook.
Qed.

Lemma tagged_lookup_canvas (i : nat) (objs : list FabricObject) :
  tagged_lookup i (imap (λ k obj, (k, obj)) objs) = objs !! i.
Proof. apply (tagged_lookup_imap 0 i objs). Qed.

Lemma fmap_snd_imap (f : nat → nat) (objs : list FabricObject) :
  snd <$> imap (λ i obj, (f i, obj)) objs = objs.
Proof.
  revert f. induction objs as [|obj objs IH]; intros f; [done|].
  rewrite imap_cons, fmap_cons. simpl. f_equal. apply (IH (f ∘ S)).
Qed.

Lemma remove_selected_spec (sel : Selection) (st : Client) :
  NoDup (Whiteboard.members sel) →
  same_refs st (remove_selected sel st)
  ∧ canvas (remove_selected sel st) = without (Whiteboard.members sel) (canvas st)
  ∧ emitted (remove_selected sel st)
    = emitted st ++ flat_map (delete_events st) (getActiveObjects sel st).
Proof.
  intros Hnd. unfold remove_selected, without, getActiveObjects.
  destruct (remove_each_spec (Whiteboard.members sel)
              (imap (λ i obj, (i, obj)) (canvas st)) st Hnd)
    as (Hrefs & Hcan & Hem).
  { symmetry. apply (fmap_snd_imap (λ i, i)). }
  split; [exact Hrefs|]. split; [exact Hcan|].
  rewrite Hem. do 2 f_equal.
  clear. induction (Whiteboard.members sel) as [|i positions IH]; [done|].
  change (omap ?f (i :: positions))
    with (match f i with
          | Some y => y :: omap f positions
          | None => omap f positions
          end).
  cbv beta. by rewrite tagged_lookup_canvas, IH.
Qed.

Lemma remove_then_save (sel : Selection) (st : Client) :
  NoDup (Whiteboard.members sel) →
  let st' := saveHistory (remove_selected sel st) in
  same_refs st st'
  ∧ canvas st' = without (Whiteboard.members sel) (canvas st)
  ∧ emitted st'
    = emitted st ++ flat_map (delete_events st) (getActiveObjects sel st)
  ∧ (isRestoringRef st = false →
     last (History.undo (historyRef st'))
     = Some (toJSON history_props
               (without (Whiteboard.members sel) (canvas st)))).
Proof.
  intros Hnd. cbv zeta.
  destruct (remove_selected_spec sel st Hnd) as (Hrefs & Hcan & Hem).
  destruct (saveHistory_frame (remove_selected sel st)) as (Hc & He & _).
  split; [|split; [|split]].
  - eapply same_refs_trans; [exact Hrefs|apply saveHistory_refs].
  - by rewrite Hc.
  - by rewrite He.
  - intros Hr. rewrite <- Hcan. apply saveHistory_top.
    destruct Hrefs as (_ & _ & _ & Hrest & _). congruence.
Qed.

(** X18. [deleteSelected] by a client that may edit, with a selection
    that is not a text being edited: the selected objects leave the
    canvas and the others stay in their order; for each selected object,
    in the order of the selection, an [object:removed] is emitted if it
    has an id, followed by what the [object:removed] listener emits;
    the clipboard is untouched; unless a restore is running the top of
    [undo] is the snapshot of the canvas that is left. *)
Theorem deleteSelected_removes_selection (sel : Selection) (st : Client) :
  isReadOnly st = false → isEditing sel = false →
  NoDup (Whiteboard.members sel) → getActiveObjects sel st ≠ [] →
  let st' := deleteSelected sel st in
  canvas st' = without (Whiteboard.members sel) (canvas st)
  ∧ emitted st'
    = emitted st ++ flat_map (delete_events st) (getActiveObjects sel st)
  ∧ clipboardRef st' = clipboardRef st
  ∧ (isRestoringRef st = false →
     last (History.undo (historyRef st'))
     = Some (toJSON history_props (canvas st'))).
Proof.
  intros Hro Hed Hnd Hsel. cbv zeta. unfold deleteSelected.
  rewrite Hro, Hed, bool_decide_eq_false_2 by exact Hsel.
  destruct (remove_then_save sel st Hnd) as (Hrefs & Hcan & Hem & Htop).
  destruct Hrefs as (_ & _ & _ & _ & Hclip & _).
  split; [exact Hcan|]. split; [exact Hem|]. split; [exact Hclip|].
  intros Hr. rewrite Hcan. by apply Htop.
Qed.

Lemma deleteSelected_removes_selection_witness :
  id ∘ props <$> canvas (deleteSelected Scenario.pick_first
                                        Scenario.two_shapes)
  = [Some "b"]
  ∧ emitted (deleteSelected Scenario.pick_first Scenario.two_shapes)
    = emitted Scenario.two_shapes
        ++ [canvas_event (mkEvent "room-1" "object:removed" (Some "a") None)].
Proof.
  destruct (deleteSelected_removes_selection Scenario.pick_first
              Scenario.two_shapes eq_refl eq_refl)
    as (Hcan & Hem & _).
  - compute_done.
  - vm_compute. discriminate.
  - split; [by rewrite Hcan|by rewrite Hem].
Defined.

(** X19. [cut] by a client that may edit: the clipboard holds a clone of
    the active object, the selected objects leave the canvas with the
    same events as under [deleteSelected], and the board is recorded.
    Unlike [deleteSelected], [cut] does not look at whether a text is
    being edited. *)
Theorem cut_moves_selection_to_clipboard (sel : Selection)
        (active : FabricObject) (st : Client) :
  isReadOnly st = false → NoDup (Whiteboard.members sel) →
  getActiveObject sel st = Some active →
  let st' := cut sel st in
  clipboardRef st' = Some (mkObject (props active) (objects active) false false)
  ∧ canvas st' = without (Whiteboard.members sel) (canvas st)
  ∧ emitted st'
    = emitted st ++ flat_map (delete_events st) (getActiveObjects sel st)
  ∧ (isRestoringRef st = false →
     last (History.undo (historyRef st'))
     = Some (toJSON history_props (canvas st'))).
Proof.
  intros Hro Hnd Hact. cbv zeta. unfold cut. rewrite Hro, Hact.
  rewrite clone_history_props.
  set (clip := Some (mkObject (props active) (objects active) false false)).
  destruct (remove_then_save sel (set_clipboard clip st) Hnd)
    as (Hrefs & Hcan & Hem & Htop).
  destruct Hrefs as (_ & _ & _ & _ & Hclip & _).
  split; [exact Hclip|]. split; [exact Hcan|]. split.
  - rewrite Hem. reflexivity.
  - intros Hr. rewrite Hcan. by apply Htop.
Qed.

Lemma cut_moves_selection_to_clipboard_witness :
  clipboardRef (cut Scenario.pick_first Scenario.two_shapes)
  = Some (Scenario.local_obj "a" 200 150)
  ∧ id ∘ props <$> canvas (cut Scenario.pick_first Scenario.two_shapes)
    = [Some "b"].
Proof.
  destruct (cut_moves_selection_to_clipboard Scenario.pick_first
              (Scenario.local_obj "a" 200 150) Scenario.two_shapes eq_refl)
    as (Hclip & Hcan & _).
  - compute_done.
  - vm_compute. reflexivity.
  - split; [exact Hclip|by rewrite Hcan].
Defined.

(** ** Duplicating, and pasting what was cut *)

Lemma place_clone_single_spec (offset : Z) (ids : nat → string)
      (source : FabricObject) (st : Client) :
  type (props source) ≠ "activeSelection" →
  let obj := retouch st (shifted_clone offset ids source) in
  let st' := place_clone offset ids source st in
  same_refs st st'
  ∧ canvas st' = canvas st ++ [obj]
  ∧ emitted st' = emitted st ++ [added_event st history_props obj]
  ∧ (isRestoringRef st = false →
     last (History.undo (historyRef st'))
     = Some (toJSON history_props (canvas st'))).
Proof.
  intros Hty. cbv zeta. rewrite place_clone_single by exact Hty.
  set (obj := shifted_clone offset ids source).
  destruct (canvas_add_spec obj st) as (Hrefs & Hc & Hem & _).
  set (st1 := canvas_add obj st) in *.
  set (st3 := emit (added_event st1 history_props (retouch st obj)) st1).
  destruct (saveHistory_frame st3) as (Hc3 & He3 & _).
  assert (Hrefs3 : same_refs st (saveHistory st3)).
  { eapply same_refs_trans; [|apply saveHistory_refs].
    destruct Hrefs as (?&?&?&?&?&?). repeat split; done. }
  split; [exact Hrefs3|]. rewrite Hc3, He3. simpl. rewrite Hc, Hem.
  split; [done|]. split.
  - unfold added_event. by destruct Hrefs as (_ & -> & _).
  - intros Hr. rewrite <- Hc. apply (saveHistory_top st3). simpl.
    destruct Hrefs as (_ & _ & _ & -> & _). exact Hr.
Qed.

Lemma shifted_clone_props (offset : Z) (ids : nat → string)
      (source : FabricObject) (st : Client) :
  let obj := retouch st (shifted_clone offset ids source) in
  id (props obj) = Some (ids 0%nat)
  ∧ left (props obj) = left (props source) + offset
  ∧ top (props obj) = top (props source) + offset
  ∧ type (props obj) = type (props source)
  ∧ payload (props obj) = payload (props source)
  ∧ remote obj = false.
Proof. cbv zeta. unfold retouch. by destruct (_ || _). Qed.

(** X20. [duplicate] of a single object by a client that may edit: a
    clone of it, shifted by 15 both ways, under the generated id and
    local even if the original was replicated, is put on top of the
    canvas and announced with one [object:added]; the original stays,
    the clipboard is untouched, and unless a restore is running the top
    of [undo] is the snapshot of the new canvas. *)
Theorem duplicate_clones_beside (sel : Selection) (active : FabricObject)
        (ids : nat → string) (st : Client) :
  isReadOnly st = false →
  getActiveObject sel st = Some active →
  type (props active) ≠ "activeSelection" →
  let obj := retouch st (shifted_clone 15 ids active) in
  let st' := duplicate sel ids st in
  canvas st' = canvas st ++ [obj]
  ∧ id (props obj) = Some (ids 0%nat)
  ∧ left (props obj) = left (props active) + 15
  ∧ top (props obj) = top (props active) + 15
  ∧ remote obj = false
  ∧ emitted st' = emitted st ++ [added_event st history_props obj]
  ∧ clipboardRef st' = clipboardRef st
  ∧ (isRestoringRef st = false →
     last (History.undo (historyRef st'))
     = Some (toJSON history_props (canvas st'))).
Proof.
  intros Hro Hact Hty. cbv zeta. unfold duplicate. rewrite Hro, Hact.
  destruct (place_clone_single_spec 15 ids active st Hty)
    as (Hrefs & Hcan & Hem & Htop).
  destruct (shifted_clone_props 15 ids active st)
    as (Hid & Hleft & Htp & _ & _ & Hrem).
  destruct Hrefs as (_ & _ & _ & _ & Hclip & _).
  repeat split; assumption.
Qed.

Lemma duplicate_clones_beside_witness :
  (λ obj, (id (props obj), left (props obj), top (props obj)))
    <$> canvas (duplicate Scenario.pick_first Scenario.new_ids
                          Scenario.one_shape)
  = [(Some "a", 200, 150); (Some "n0", 215, 165)].
Proof.
  destruct (duplicate_clones_beside Scenario.pick_first
              (Scenario.local_obj "a" 200 150) Scenario.new_ids
              Scenario.one_shape eq_refl)
    as (Hcan & _).
  - vm_compute. reflexivity.
  - vm_compute. discriminate.
  - by rewrite Hcan.
Defined.

Lemma filter_tags_apart (f : nat → nat) (m : nat)
      (objs : list FabricObject) :
  (∀ k, f k ≠ m) →
  snd <$> filter (λ x, fst x ∉ [m]) (imap (λ k obj, (f k, obj)) objs)
  = objs.
Proof.
  revert f. induction objs as [|obj objs IH]; intros f Hf; [done|].
  rewrite imap_cons, filter_cons_True.
  - rewrite fmap_cons. simpl. f_equal. apply (IH (f ∘ S)).
    intros k. apply Hf.
  - simpl. rewrite list_elem_of_singleton. apply Hf.
Qed.

Lemma without_single_from (n i : nat) (objs : list FabricObject) :
  snd <$> filter (λ x, fst x ∉ [(n + i)%nat])
                 (imap (λ k obj, ((n + k)%nat, obj)) objs)
  = delete i objs.
Proof.
  revert n i. induction objs as [|obj objs IH]; intros n i; [done|].
  rewrite imap_cons. destruct i as [|i].
  - rewrite filter_cons_False
      by (simpl; rewrite list_elem_of_singleton; intros H; apply H; lia).
    simpl. apply (filter_tags_apart (λ k, (n + S k)%nat)). intros k. lia.
  - rewrite filter_cons_True
      by (simpl; rewrite list_elem_of_singleton; lia).
    rewrite fmap_cons. simpl. f_equal.
    replace (n + S i)%nat with (S n + i)%nat by lia.
    rewrite <- (IH (S n) i). do 2 f_equal.
    apply imap_ext. intros k o _. simpl. f_equal. lia.
Qed.

Lemma without_single (i : nat) (objs : list FabricObject) :
  without [i] objs = delete i objs.
Proof. apply (without_single_from 0 i objs). Qed.

(** X21. Cut and paste of one object by a client that may edit: the
    object leaves its place and a clone of it lands on top of the
    canvas, shifted by 20 both ways, under a generated id and local even
    if the original was replicated; the peers are told of the removal
    (if the original had an id) and of the addition. *)
Theorem cut_then_paste_moves_to_top (sel : Selection) (i : nat)
        (obj : FabricObject) (ids : nat → string) (st : Client) :
  isReadOnly st = false →
  Whiteboard.members sel = [i] → canvas st !! i = Some obj →
  type (props obj) ≠ "activeSelection" →
  let pasted := retouch st (shifted_clone 20 ids obj) in
  let st' := paste ids (cut sel st) in
  canvas st' = delete i (canvas st) ++ [pasted]
  ∧ id (props pasted) = Some (ids 0%nat)
  ∧ left (props pasted) = left (props obj) + 20
  ∧ top (props pasted) = top (props obj) + 20
  ∧ remote pasted = false
  ∧ emitted st'
    = emitted st ++ delete_events st obj
        ++ [added_event st history_props pasted].
Proof.
  intros Hro Hsel Hobj Hty. cbv zeta.
  assert (Hobjs : getActiveObjects sel st = [obj]).
  { unfold getActiveObjects. rewrite Hsel. simpl. by rewrite Hobj. }
  assert (Hact : getActiveObject sel st = Some obj).
  { unfold getActiveObject. by rewrite Hobjs. }
  assert (Hnd : NoDup (Whiteboard.members sel)).
  { rewrite Hsel. apply NoDup_singleton. }
  assert (Hcut : cut sel st
                 = saveHistory
                     (remove_selected sel
                        (set_clipboard
                           (Some (mkObject (props obj) (objects obj)
                                           false false)) st))).
  { unfold cut. by rewrite Hro, Hact, clone_history_props. }
  set (clip := mkObject (props obj) (objects obj) false false) in *.
  destruct (remove_then_save sel (set_clipboard (Some clip) st) Hnd)
    as (Hrefs & Hcan & Hem & _).
  rewrite <- Hcut in Hrefs, Hcan, Hem.
  change (getActiveObjects sel (set_clipboard (Some clip) st))
    with (getActiveObjects sel st) in Hem.
  rewrite Hobjs in Hem. rewrite Hsel, without_single in Hcan.
  simpl in Hcan, Hem. rewrite app_nil_r in Hem.
  assert (Hclip : clipboardRef (cut sel st) = Some clip).
  { by destruct Hrefs as (_ & _ & _ & _ & -> & _). }
  unfold paste. rewrite Hclip.
  destruct (place_clone_single_spec 20 ids clip (cut sel st) Hty)
    as (_ & Hcan' & Hem' & _).
  assert (Hre : retouch (cut sel st) (shifted_clone 20 ids clip)
                = retouch st (shifted_clone 20 ids obj)).
  { change (shifted_clone 20 ids clip) with (shifted_clone 20 ids obj).
    symmetry. apply retouch_same; by destruct Hrefs as (? & _ & ? & _). }
  rewrite Hre in Hcan', Hem'.
  destruct (shifted_clone_props 20 ids obj st)
    as (Hid & Hleft & Htp & _ & _ & Hrem).
  rewrite Hcan', Hcan, Hem', Hem, <- app_assoc.
  repeat split; try assumption.
  do 2 f_equal. unfold added_event.
  by destruct Hrefs as (_ & -> & _).
Qed.

Lemma cut_then_paste_moves_to_top_witness :
  (λ obj, (id (props obj), left (props obj), top (props obj)))
    <$> canvas (paste Scenario.new_ids
                      (cut Scenario.pick_first Scenario.two_shapes))
  = [(Some "b", 220, 150); (Some "n0", 220, 170)].
Proof.
  destruct (cut_then_paste_moves_to_top Scenario.pick_first 0%nat
              (Scenario.local_obj "a" 200 150) Scenario.new_ids
              Scenario.two_shapes eq_refl eq_refl eq_refl)
    as (Hcan & _).
  - vm_compute. discriminate.
  - by rewrite Hcan.
Defined.

(** ** Pasting a selection of several objects *)





(** ** The relay over time *)

Lemma members_join (socket r r' : string) (sv : Server) :
  members r' (join socket r sv)
  = if decide (r = r') then {[socket]} ∪ members r sv else members r' sv.
Proof.
  unfold members, join. simpl. rewrite lookup_insert.
  destruct (decide (r = r')) as [->|]; done.
Qed.

Lemma members_on_disconnect (socket r : string) (sv : Server) :
  members r (on_disconnect socket sv) = members r sv ∖ {[socket]}.
Proof.
  unfold members, on_disconnect. simpl.
  rewrite map_lookup_filter, lookup_fmap.
  destruct (rooms sv !! r) as [X|]; simpl.
  2: { apply set_eq. intros x. rewrite elem_of_difference, elem_of_empty.
       tauto. }
  destruct (decide (X ∖ {[socket]} = ∅)) as [HX|HX].
  - rewrite option_guard_False by (intros Hne; by apply Hne). simpl.
    by rewrite HX.
  - by rewrite option_guard_True.
Qed.

(** X23. A [join-room] puts the socket in the room, leaves every other
    room as it was, and writes one [request-sync] that names the joiner
    to those who were in the room before, the joiner apart: the first to
    join a room asks nobody. *)
Theorem join_room_asks_the_others (socket r : string) (sv : Server) :
  ∃ sv' d,
    on_message socket (join_room r) sv = (sv', [d])
    ∧ members r sv' = {[socket]} ∪ members r sv
    ∧ (∀ r', r' ≠ r → members r' sv' = members r' sv)
    ∧ message d = request_sync socket
    ∧ recipients d = members r sv ∖ {[socket]}
    ∧ (members r sv ⊆ {[socket]} → recipients d = ∅).
Proof.
  eexists _, _. split; [reflexivity|]. simpl.
  assert (Hr : members r (join socket r sv) = {[socket]} ∪ members r sv).
  { rewrite members_join. by rewrite decide_True. }
  split; [exact Hr|]. split; [|split; [done|]].
  - intros r' Hne. rewrite members_join. by rewrite decide_False.
  - rewrite Hr. split.
    + apply set_eq. intros x.
      rewrite !elem_of_difference, elem_of_union, elem_of_singleton. tauto.
    + intros Hsub. apply set_eq. intros x. specialize (Hsub x).
      rewrite elem_of_singleton in Hsub.
      rewrite !elem_of_difference, elem_of_union, elem_of_singleton,
        elem_of_empty. tauto.
Qed.

Lemma serve_outsider (inputs : list Input) (c r : string) :
  c ≠ r → sends c (join_room r) ∉ inputs →
  ∀ sv, c ∉ members r sv →
        (c ∉ members r (fst (serve inputs sv)))
        ∧ (∀ d event, d ∈ snd (serve inputs sv) →
                      message d = relayed_canvas_event event →
                      room event = r → c ∉ recipients d).
Proof.
  intros Hcr. induction inputs as [|i rest IH]; intros Hnot sv Hout.
  - simpl. split; [exact Hout|]. intros d event Hd. by apply elem_of_nil in Hd.
  - assert (Hrest : sends c (join_room r) ∉ rest).
    { intros Hin. apply Hnot. by right. }
    assert (Hi : i ≠ sends c (join_room r)).
    { intros ->. apply Hnot. by left. }
    assert (Hone : (c ∉ members r (fst (serve_one i sv)))
                   ∧ (∀ d event, d ∈ snd (serve_one i sv) →
                                 message d = relayed_canvas_event event →
                                 room event = r → c ∉ recipients d)).
    { destruct i as [s|s|s [r0|event0|r0 state targetId]]; simpl.
      - split; [|intros d event Hd; by apply elem_of_nil in Hd].
        unfold on_connection. rewrite members_join.
        destruct (decide (s = r)) as [->|]; [|done].
        rewrite elem_of_union, elem_of_singleton. tauto.
      - split; [|intros d event Hd; by apply elem_of_nil in Hd].
        rewrite members_on_disconnect, elem_of_difference. tauto.
      - split.
        + rewrite members_join. destruct (decide (r0 = r)) as [->|]; [|done].
          assert (s ≠ c) by (intros ->; by apply Hi).
          rewrite elem_of_union, elem_of_singleton. intros [?|?]; by auto.
        + intros d event Hd. apply list_elem_of_singleton in Hd as ->.
          simpl. discriminate.
      - split; [done|]. intros d event Hd.
        apply list_elem_of_singleton in Hd as ->. simpl.
        intros [= <-] Hroom. rewrite Hroom, elem_of_difference. tauto.
      - split; [done|]. intros d event Hd.
        apply list_elem_of_singleton in Hd as ->. simpl. discriminate. }
    destruct Hone as (Hout1 & Hds1).
    simpl. destruct (serve_one i sv) as [sv1 ds1] eqn:E1.
    simpl in Hout1, Hds1.
    destruct (IH Hrest sv1 Hout1) as (Hout2 & Hds2).
    destruct (serve rest sv1) as [sv2 ds2] eqn:E2. simpl in *.
    split; [exact Hout2|]. intros d event Hd.
    apply elem_of_app in Hd as [Hd|Hd]; eauto.
Qed.

(** X24. Room isolation over any run of the relay from its start, with
    sockets connecting, disconnecting and sending as they like: a socket
    that never sent [join-room] for [r], and whose own id is not [r], is
    no member of [r] at the end and was written none of the
    [canvas-event]s tagged with [r]. *)
Theorem relay_isolation (inputs : list Input) (c r : string) :
  c ≠ r → sends c (join_room r) ∉ inputs →
  (c ∉ members r (fst (serve inputs start)))
  ∧ (∀ d event, d ∈ snd (serve inputs start) →
                message d = relayed_canvas_event event →
                room event = r → c ∉ recipients d).
Proof.
  intros Hcr Hnot. apply serve_outsider; [done|done|].
  unfold members, start. simpl. rewrite lookup_empty. apply not_elem_of_empty.
Qed.

Lemma relay_isolation_witness :
  "C" ∉ members "room-1"
        (fst (serve [connects "A"; connects "C";
                     sends "A" (join_room "room-1");
                     sends "C" (join_room "room-2");
                     sends "A" (canvas_event
                                  (mkEvent "room-1" "clear" None None))]
                    start)).
Proof.
  destruct (relay_isolation
              [connects "A"; connects "C";
               sends "A" (join_room "room-1");
               sends "C" (join_room "room-2");
               sends "A" (canvas_event (mkEvent "room-1" "clear" None None))]
              "C" "room-1") as (Hout & _).
  - discriminate.
  - rewrite !elem_of_cons, elem_of_nil.
    intros [H|[H|[H|[H|[H|H]]]]]; try discriminate H. exact H.
  - exact Hout.
Defined.

Lemma join_room_asks_the_others_witness :
  ∃ sv' d,
    on_message "A" (join_room "room-1") (on_connection "A" start) = (sv', [d])
    ∧ recipients d = ∅.
Proof.
  destruct (join_room_asks_the_others "A" "room-1" (on_connection "A" start))
    as (sv' & d & Hm & _ & _ & _ & _ & Hnone).
  exists sv', d. split; [exact Hm|]. apply Hnone.
  assert (Hempty : members "room-1" (on_connection "A" start) = ∅)
    by (vm_compute; reflexivity).
  rewrite Hempty. intros x Hx. by apply not_elem_of_empty in Hx.
Defined.

(** ** A client joins a room that holds a board *)

Lemma shape_of_retouch (st : Client) (obj : FabricObject) :
  shape_of (props (retouch st obj)) = shape_of (props obj).
Proof. unfold retouch. by destruct (_ || _). Qed.

(** X25. From connecting to seeing the board.  The joiner's [connect]
    listener sends [join-room]; the relay asks the teacher, who was in
    the room, with a [request-sync] that names the joiner; the teacher,
    not being read-only, answers with a [sync-state]; the relay turns it
    into a [load-state] for the joiner alone, as the joiner's own room
    holds nobody else; and after loading it the joiner's canvas shows,
    in the same order, objects of the teacher's types, positions,
    compositing and style. *)
Theorem joiner_receives_the_board (sv : Server) (T J : string)
        (teacher joiner : Client) :
  isReadOnly teacher = false →
  T ∈ members (roomId joiner) sv → T ≠ J → members J sv = {[J]} →
  let state := toJSON [] (canvas teacher) in
  ∃ sv1 d1 d2,
    last (emitted (on_connect joiner)) = Some (join_room (roomId joiner))
    ∧ on_message J (join_room (roomId joiner)) sv = (sv1, [d1])
    ∧ T ∈ recipients d1 ∧ message d1 = request_sync J
    ∧ last (emitted (on_request_sync J teacher))
      = Some (sync_state (roomId teacher) state J)
    ∧ on_message T (sync_state (roomId teacher) state J) sv1 = (sv1, [d2])
    ∧ recipients d2 = {[J]} ∧ message d2 = load_state state
    ∧ shape_of ∘ props
        <$> canvas (on_load_state state (on_connect joiner))
      = shape_of ∘ props <$> canvas teacher.
Proof.
  intros Hro HT HTJ HJ. cbv zeta. eexists _, _, _.
  split; [apply last_snoc|]. split; [reflexivity|]. simpl.
  split; [|split; [reflexivity|]].
  { rewrite members_join, decide_True by done.
    rewrite elem_of_difference, elem_of_union, !elem_of_singleton. tauto. }
  split; [rewrite on_request_sync_emitted, Hro; apply last_snoc|].
  split; [reflexivity|]. simpl. split; [|split; [reflexivity|]].
  { rewrite members_join.
    destruct (decide (roomId joiner = J)) as [Heq|]; [|done].
    rewrite Heq, HJ. apply set_eq. intros x.
    rewrite elem_of_union, elem_of_singleton. tauto. }
  unfold on_load_state.
  destruct (loadFromJSON_spec (toJSON [] (canvas teacher))
              (set_isRestoring true (on_connect joiner)) eq_refl)
    as (_ & Hcan & _).
  simpl. rewrite Hcan. unfold toJSON. rewrite <- !list_fmap_compose.
  apply list_fmap_ext. intros i obj _. simpl.
  by rewrite shape_of_retouch.
Qed.

Lemma joiner_receives_the_board_witness :
  shape_of ∘ props
    <$> canvas (on_load_state (toJSON [] (canvas Scenario.two_shapes))
                              (on_connect Scenario.student))
  = [("rect", 200, 150, "source-over", "fill:#6366f1");
     ("circle", 220, 150, "source-over", "fill:#f43f5e")].
Proof.
  destruct (joiner_receives_the_board
              (fst (on_message "T" (join_room "room-1")
                      (on_connection "J" (on_connection "T" start))))
              "T" "J" Scenario.two_shapes Scenario.student eq_refl)
    as (sv1 & d1 & d2 & _ & _ & _ & _ & _ & _ & _ & _ & Hshape).
  - vm_compute. reflexivity.
  - discriminate.
  - vm_compute. reflexivity.
  - rewrite Hshape. vm_compute. reflexivity.
Defined.

(** ** Strokes of the brush, ripples and text *)

(** A local object that is put on an up-to-date board and taken off
    again leaves the canvas as it was and two snapshots on [undo]. *)
Lemma add_remove_records_twice (obj obj' : FabricObject) (st : Client) :
  remote obj = false → remote obj' = false →
  isRestoringRef st = false →
  last (History.undo (historyRef st))
  = Some (toJSON history_props (canvas st)) →
  let st2 :=
    on_object_removed obj' (set_canvas (canvas st) (canvas_add obj st)) in
  canvas st2 = canvas st
  ∧ emitted st2 = emitted st ++ listener_broadcast st obj'
  ∧ same_refs st st2
  ∧ historyRef st2
    = History.mk
        (History.undo (historyRef st)
           ++ [toJSON history_props (canvas st ++ [obj]);
               toJSON history_props (canvas st)]) [].
Proof.
  intros Hloc Hloc' Hr Htop. cbv zeta.
  destruct (canvas_add_spec obj st) as (Hrefs & _ & Hem & Hh).
  rewrite Hloc in Hh.
  set (st1 := canvas_add obj st) in *.
  set (st1' := set_canvas (canvas st) st1).
  assert (Hrefs1 : same_refs st st1').
  { destruct Hrefs as (?&?&?&?&?&?). repeat split; done. }
  destruct (on_object_removed_spec obj' st1') as (Hrefs' & Hcan' & Hem' & _).
  assert (Hsnap : toJSON history_props (canvas st)
                  ≠ toJSON history_props (canvas st ++ [obj])).
  { intros Heq. apply (f_equal length) in Heq. unfold toJSON in Heq.
    rewrite !length_fmap, length_app in Heq. simpl in Heq. lia. }
  assert (Hh1 : historyRef st1
                = History.mk
                    (History.undo (historyRef st)
                       ++ [toJSON history_props (canvas st ++ [obj])]) []).
  { rewrite Hh, saveHistory_push; [done|exact Hr|].
    simpl. rewrite Htop. congruence. }
  split; [by rewrite Hcan'|]. split.
  { rewrite Hem'. simpl. rewrite Hem. f_equal.
    by apply listener_broadcast_refs. }
  split; [eapply same_refs_trans; eassumption|].
  rewrite on_object_removed_local by exact Hloc'.
  rewrite saveHistory_push.
  - simpl. rewrite Hh1. simpl. by rewrite <- app_assoc.
  - by destruct Hrefs1 as (_ & _ & _ & -> & _).
  - simpl. rewrite Hh1. simpl. rewrite last_snoc. congruence.
Qed.



(** X27. A dab of the eraser, smaller than 5 both ways, on an
    up-to-date board: the canvas is as before, yet the peers are sent an
    [object:removed] for the id the dab had just been given, which was
    never announced, and [undo] has grown by two snapshots, the board
    with the dab and the board without it, with [redo] emptied. *)
Theorem small_eraser_dab_leaves_traces
        (path : FabricObject) (pathId masked : string) (width height : Z)
        (st : Client) :
  remote path = false → activeToolRef st = "eraser" →
  width < 5 → height < 5 → pathId ≠ "" →
  isRestoringRef st = false →
  last (History.undo (historyRef st))
  = Some (toJSON history_props (canvas st)) →
  let st' := free_draw path pathId masked width height st in
  canvas st' = canvas st
  ∧ emitted st'
    = emitted st
        ++ [canvas_event
              (mkEvent (roomId st) "object:removed" (Some pathId) None)]
  ∧ Forall (λ m, ∀ event, m = canvas_event event →
                          ev_type event = "object:added" →
                          ev_id event ≠ Some pathId)
           (skipn (length (emitted st)) (emitted st'))
  ∧ historyRef st'
    = History.mk
        (History.undo (historyRef st)
           ++ [toJSON history_props (canvas st ++ [path]);
               toJSON history_props (canvas st)]) [].
Proof.
  intros Hloc Htool Hw Hh HpathId Hr Htop. cbv zeta. unfold free_draw.
  destruct (canvas_add_spec path st) as (Hrefs & Hc & _).
  destruct Hrefs as (_ & _ & Htool1 & _).
  unfold on_path_created. rewrite Hc, last_snoc, removelast_last.
  rewrite Htool1, Htool, bool_decide_eq_true_2 by reflexivity.
  rewrite !bool_decide_eq_true_2 by assumption. cbn [andb].
  set (dab := set_props _ (retouch st path)).
  assert (Hdab : remote dab = false ∧ id (props dab) = Some pathId).
  { subst dab. unfold retouch. destruct (_ || _); by simpl. }
  destruct Hdab as (Hdloc & Hdid).
  destruct (add_remove_records_twice path dab st Hloc Hdloc Hr Htop)
    as (Hcan & Hem & _ & Hhist).
  assert (Hsaid : listener_broadcast st dab
                  = [canvas_event
                       (mkEvent (roomId st) "object:removed" (Some pathId)
                                None)]).
  { unfold listener_broadcast, removed_event.
    rewrite Htool, Hdid, Hdloc, bool_decide_eq_true_2 by reflexivity.
    simpl. by rewrite bool_decide_eq_false_2. }
  rewrite Hsaid in Hem.
  split; [exact Hcan|]. split; [exact Hem|]. split; [|exact Hhist].
  rewrite Hem, drop_app_length. constructor; [|constructor].
  intros event [= <-]. discriminate.
Qed.

Lemma small_eraser_dab_leaves_traces_witness :
  let board := on_tool_change "eraser" Scenario.teacher in
  let dab :=
    mkObject (mkProps None "path" 10 10 "source-over" true "") [] false
             false in
  canvas (free_draw dab "p" "" 3 3 board) = []
  ∧ emitted (free_draw dab "p" "" 3 3 board)
    = [canvas_event (mkEvent "room-1" "object:removed" (Some "p") None)]
  ∧ length (History.undo (historyRef (free_draw dab "p" "" 3 3 board)))
    = 3%nat.
Proof.
  cbv zeta.
  destruct (small_eraser_dab_leaves_traces
              (mkObject (mkProps None "path" 10 10 "source-over" true "")
                        [] false false)
              "p" "" 3 3 (on_tool_change "eraser" Scenario.teacher) eq_refl)
    as (Hcan & Hem & _ & Hhist).
  - vm_compute. reflexivity.
  - lia.
  - lia.
  - discriminate.
  - vm_compute. reflexivity.
  - vm_compute. reflexivity.
  - rewrite Hcan, Hem, Hhist. repeat split.
Defined.

(** X28. The ripple of a zoom click on an up-to-date board, from
    [showRipple] to the end of its animation: nothing is sent and the
    canvas is as before, but the circle, being a local object like any
    other, went through the listeners: [undo] has grown by the board
    with the circle and the board without it, and [redo] is emptied. *)
Theorem ripple_is_recorded_in_history (scenePoint : Point) (style : string)
        (st : Client) :
  isRestoringRef st = false →
  last (History.undo (historyRef st))
  = Some (toJSON history_props (canvas st)) →
  let shown := showRipple scenePoint style st in
  let st' := ripple_complete (Some (length (canvas st))) shown in
  (∃ ripple, canvas shown = canvas st ++ [ripple]
             ∧ id (props ripple) = None ∧ erasable ripple = false)
  ∧ canvas st' = canvas st
  ∧ emitted st' = emitted st
  ∧ ∃ ripple,
      historyRef st'
      = History.mk
          (History.undo (historyRef st)
             ++ [toJSON history_props (canvas st ++ [ripple]);
                 toJSON history_props (canvas st)]) []
      ∧ type (props ripple) = "circle"
      ∧ left (props ripple) = fst scenePoint
      ∧ top (props ripple) = snd scenePoint.
Proof.
  intros Hr Htop. cbv zeta. unfold showRipple.
  set (circle := mkObject _ [] false false).
  destruct (canvas_add_spec circle st) as (_ & Hc & _).
  split.
  { exists (retouch st circle). split; [exact Hc|].
    rewrite retouch_id. split; [done|].
    unfold erasable. by rewrite retouch_id. }
  unfold ripple_complete.
  rewrite Hc, list_lookup_middle by done.
  replace (delete (length (canvas st)) (canvas st ++ [retouch st circle]))
    with (canvas st).
  2: { rewrite delete_middle. by rewrite app_nil_r. }
  destruct (add_remove_records_twice circle (retouch st circle) st
              eq_refl) as (Hcan & Hem & _ & Hhist); [|exact Hr|exact Htop|].
  { unfold retouch. by destruct (_ || _). }
  split; [exact Hcan|]. split.
  - rewrite Hem. unfold listener_broadcast. rewrite retouch_id. simpl.
    by rewrite andb_false_r, app_nil_r.
  - exists circle. by split.
Qed.

Lemma ripple_is_recorded_in_history_witness :
  length (History.undo
            (historyRef
               (ripple_complete (Some 1%nat)
                  (showRipple (200, 150) "stroke:#000" Scenario.one_shape))))
  = S (S (length (History.undo (historyRef Scenario.one_shape)))).
Proof.
  destruct (ripple_is_recorded_in_history (200, 150) "stroke:#000"
              Scenario.one_shape eq_refl)
    as (_ & _ & _ & ripple & Hhist & _).
  - vm_compute. reflexivity.
  - assert (Hlen : length (canvas Scenario.one_shape) = 1%nat)
      by (vm_compute; reflexivity).
    rewrite Hlen in Hhist. rewrite Hhist. vm_compute. reflexivity.
Defined.

(** X29. The text tool makes a text on a double click only.  With the
    text tool picked by a client that may edit, a click more than 300 ms
    after the previous one changes nothing but the time that is
    remembered; a second click on empty canvas at most 300 ms later, and
    not in the same millisecond, puts an [i-text] under the generated id
    at the place of that second click, announces it and records the
    board. *)
Theorem text_needs_a_double_click (t1 t2 : Z) (target1 : bool)
        (p1 p2 : Point) (id1 id2 style : string) (lastTextClickTime : Z)
        (st : Client) :
  activeToolRef st = "text" → isReadOnly st = false →
  300 < t1 - lastTextClickTime → t2 - t1 ≤ 300 → t2 ≠ t1 →
  let first := handleTextClick t1 target1 p1 id1 style lastTextClickTime st in
  let second := handleTextClick t2 false p2 id2 style (fst first) (snd first) in
  let text :=
    mkObject (mkProps (Some id2) "i-text" (fst p2) (snd p2) "source-over"
                      true style) [] false false in
  first = (t1, st)
  ∧ fst second = t2
  ∧ canvas (snd second) = canvas st ++ [text]
  ∧ emitted (snd second) = emitted st ++ [added_event st history_props text]
  ∧ (isRestoringRef st = false →
     last (History.undo (historyRef (snd second)))
     = Some (toJSON history_props (canvas st ++ [text]))).
Proof.
  intros Htool Hro Hfar Hnear Hne. cbv zeta.
  assert (Hfirst : handleTextClick t1 target1 p1 id1 style lastTextClickTime st
                   = (t1, st)).
  { unfold handleTextClick. rewrite Htool, Hro.
    rewrite bool_decide_eq_true_2 by reflexivity. simpl.
    by rewrite (bool_decide_eq_true_2 (300 < _)) by exact Hfar. }
  rewrite Hfirst. cbn [fst snd]. split; [done|].
  unfold handleTextClick. rewrite Htool, Hro.
  rewrite bool_decide_eq_true_2 by reflexivity. simpl.
  rewrite (bool_decide_eq_false_2 (300 < _)) by lia.
  rewrite (bool_decide_eq_false_2 (_ = 0)) by lia. simpl.
  split; [done|].
  set (text := mkObject _ [] false false).
  destruct (add_and_announce_spec history_props text st eq_refl)
    as (Hcan & Hem & _ & _ & _ & Htop & _).
  assert (Hre : retouch st text = text).
  { unfold retouch. rewrite Hro, Htool. reflexivity. }
  rewrite Hre in Hcan, Hem.
  split; [exact Hcan|]. split; [exact Hem|].
  intros Hr. rewrite <- Hcan. by apply Htop.
Qed.

Lemma text_needs_a_double_click_witness :
  let board := on_tool_change "text" Scenario.one_shape in
  id ∘ props
    <$> canvas (snd (handleTextClick 1200 false (40, 40) "t2" ""
                       (fst (handleTextClick 1000 false (40, 40) "t1" "" 0
                                             board))
                       (snd (handleTextClick 1000 false (40, 40) "t1" "" 0
                                             board))))
  = [Some "a"; Some "t2"].
Proof.
  cbv zeta.
  destruct (text_needs_a_double_click 1000 1200 false (40, 40) (40, 40)
              "t1" "t2" "" 0 (on_tool_change "text" Scenario.one_shape)
              eq_refl eq_refl)
    as (_ & _ & Hcan & _); [lia|lia|lia|].
  rewrite Hcan. vm_compute. reflexivity.
Defined.

(** ** The test line *)

(** X30. [testDraw] has no read-only test and never announces its line:
    on any client the line lands on top of the canvas, without id, and
    nothing is sent, so no peer ever shows it; the eraser cannot take it
    and a replicated [object:removed] that names an id leaves it where it
    is; unless a restore is running the board with the line is on top of
    [undo]. *)
Theorem testDraw_stays_local (at_ : Point) (style : string) (st : Client) :
  let st' := testDraw at_ style st in
  ∃ line,
    canvas st' = canvas st ++ [line]
    ∧ type (props line) = "line" ∧ id (props line) = None
    ∧ erasable line = false
    ∧ emitted st' = emitted st
    ∧ (∀ event, ev_type event = "object:removed" → ev_id event ≠ None →
                Forall (λ obj, id (props obj) ≠ ev_id event) (canvas st) →
                on_canvas_event event st' = st')
    ∧ (isRestoringRef st = false →
       last (History.undo (historyRef st'))
       = Some (toJSON history_props
                 (canvas st
                    ++ [mkObject (mkProps None "line" (fst at_) (snd at_)
                                          "source-over" true style)
                                 [] false false]))).
Proof.
  cbv zeta. unfold testDraw. set (line := mkObject _ [] false false).
  destruct (canvas_add_spec line st) as (_ & Hc & Hem & Hh).
  exists (retouch st line).
  assert (Hid : id (props (retouch st line)) = None) by by rewrite retouch_id.
  split; [exact Hc|].
  split; [by unfold retouch; destruct (_ || _)|].
  split; [exact Hid|].
  split; [by unfold erasable; rewrite Hid|].
  split; [exact Hem|]. split.
  - intros event Ht Hsome Hothers.
    rewrite on_canvas_event_removed by exact Ht.
    apply canvas_remove_where_none. rewrite Hc. apply Forall_app. split.
    + eapply Forall_impl; [exact Hothers|]. intros obj Hobj.
      by apply bool_decide_eq_false.
    + constructor; [|constructor]. apply bool_decide_eq_false.
      rewrite Hid. congruence.
  - intros Hr. rewrite Hh. simpl.
    apply (saveHistory_top (set_canvas (canvas st ++ [line]) st) Hr).
Qed.

Lemma testDraw_stays_local_witness :
  id ∘ props <$> canvas (testDraw (50, 50) "stroke:red" Scenario.student_board)
  = [Some "a"; None]
  ∧ emitted (testDraw (50, 50) "stroke:red" Scenario.student_board)
    = emitted Scenario.student_board.
Proof.
  destruct (testDraw_stays_local (50, 50) "stroke:red" Scenario.student_board)
    as (line & Hcan & _ & Hid & _ & Hem & _).
  split; [|exact Hem].
  rewrite Hcan, fmap_app. simpl. by rewrite Hid.
Defined.
